(** * LLM-judge-reporting: calibration-budget allocation and bias-corrected
      estimation

    A shallow embedding of [llm_judge_reporting/allocation.py] and of the
    estimator interface it is used with.  Python integers are [Z];
    exceptions and the [warnings] channel are threaded through a small
    state-and-error monad.

    The allocation code is embedded twice.  The first embedding idealises
    Python floats as exact real numbers (type [R]): it is used for the
    properties that are not sensitive to the rounding of the share.  The second
    one, in module [Floating], is written over an interface of float
    operations with two instances: IEEE binary64 itself (primitive floats,
    which evaluate), and correctly rounded arithmetic over the reals with
    infinities and not-a-number, whose rounding function is only assumed
    monotone and to fix [0] and [1]. *)

From Stdlib Require Import Floats.
From Stdlib Require Import Reals ZArith String List Bool Lra Lia Psatz.
Import ListNotations.

Open Scope R_scope.

(** ** The fragment of the Python runtime the code relies on *)

(** Exceptions the arithmetic and the [assert] statements can raise
    ([OverflowError]: an int too large to convert to a float). *)
Inductive exn : Type :=
| AssertionError (msg : string)
| ZeroDivisionError
| ValueError
| OverflowError.

Inductive outcome (A : Type) : Type :=
| Returned (a : A)
| Raised (e : exn).

Arguments Returned {A} a.
Arguments Raised {A} e.

(** The state of the [warnings] module seen by the function: whether the
    caller's filter silences warnings, and the warnings shown so far.  (A
    filter that escalates warnings to exceptions is a configuration of the
    caller and is not modelled.) *)
Record warnings_env : Type := mk_warnings_env {
  silenced : bool;
  shown : list string
}.

Definition Py (A : Type) : Type := warnings_env -> outcome A * warnings_env.

Definition ret {A : Type} (a : A) : Py A := fun w => (Returned a, w).

Definition raise {A : Type} (e : exn) : Py A := fun w => (Raised e, w).

Definition bind {A B : Type} (c : Py A) (k : A -> Py B) : Py B :=
  fun w =>
    match c w with
    | (Returned a, w') => k a w'
    | (Raised e, w') => (Raised e, w')
    end.

Declare Scope py_scope.
Delimit Scope py_scope with py.
Notation "x <- c ;; k" := (bind c (fun x => k))
  (at level 61, c at next level, right associativity) : py_scope.
Notation "c ;; k" := (bind c (fun _ => k))
  (at level 61, right associativity) : py_scope.
Open Scope py_scope.

(** [warnings.warn(msg)] *)
Definition warn (msg : string) : Py unit :=
  fun w =>
    (Returned tt,
     if silenced w then w
     else mk_warnings_env (silenced w) (shown w ++ [msg])).

(** [assert cond, msg] *)
Definition py_assert (cond : bool) (msg : string) : Py unit :=
  if cond then ret tt else raise (AssertionError msg).

(** Comparisons of real numbers as booleans. *)
Definition Rleb (x y : R) : bool := if Rle_dec x y then true else false.
Definition Rltb (x y : R) : bool := if Rlt_dec x y then true else false.

(** The chained comparison [0 <= x <= 1]. *)
Definition in_unit_interval (x : R) : bool := Rleb 0 x && Rleb x 1.

(** True division [x / y]. *)
Definition py_truediv (x y : R) : Py R :=
  if Req_dec_T y 0 then raise ZeroDivisionError else ret (x / y).

(** [math.sqrt(x)] *)
Definition py_sqrt (x : R) : Py R :=
  if Rle_dec 0 x then ret (sqrt x) else raise ValueError.

(** [min(x, y)] on floats: the first argument unless the second is smaller. *)
Definition py_min (x y : R) : R := if Rlt_dec y x then y else x.

(** A number that is either a Python [int] or a [float]. *)
Inductive pynum : Type :=
| PyInt (z : Z)
| PyFloat (x : R).

Definition pynum_value (v : pynum) : R :=
  match v with
  | PyInt z => IZR z
  | PyFloat x => x
  end.

(** [min(a, x)] with [a] an int and [x] a float: the result keeps the type
    of the argument that is returned. *)
Definition py_min_int_float (a : Z) (x : R) : pynum :=
  if Rlt_dec x (IZR a) then PyFloat x else PyInt a.

(** [round(x)] on a float: nearest integer, ties to the even one. *)
Definition py_round_float (x : R) : Z :=
  let n := Int_part x in
  let d := x - IZR n in
  if Rlt_dec d (1 / 2) then n
  else if Rlt_dec (1 / 2) d then (n + 1)%Z
  else if Z.even n then n else (n + 1)%Z.

(** [round(v)]: the identity on an int. *)
Definition py_round (v : pynum) : Z :=
  match v with
  | PyInt z => z
  | PyFloat x => py_round_float x
  end.

(** [max(a, b)] on ints. *)
Definition py_max (a b : Z) : Z := if (a <? b)%Z then b else a.

(** ** allocation.py *)

Definition default_q0_pilot : R := 9 / 10.
Definition default_q1_pilot : R := 9 / 10.
Definition default_m_pilot : Z := 0.
Definition default_eps : R := 1 / 1000000.

Definition advisory : string :=
  "If 'm_pilot' is 0, compute kappa using q0 and q1 as given values.".

(** The five [assert] statements at entry. *)
Definition validate (m : Z) (p q0_pilot q1_pilot : R) (m_pilot : Z) : Py unit :=
  py_assert (in_unit_interval p) "p must be in [0, 1]" ;;
  py_assert (in_unit_interval q0_pilot) "q0_pilot must be in [0, 1]" ;;
  py_assert (in_unit_interval q1_pilot) "q1_pilot must be in [0, 1]" ;;
  py_assert (0 <? m)%Z "m must be a positive integer" ;;
  py_assert (0 <=? m_pilot)%Z "m_pilot must be a non-negative integer".

(** The computation of [kappa] in the general branch. *)
Definition compute_kappa (q0_pilot q1_pilot : R) (m_pilot : Z) (eps : R) : Py R :=
  if (m_pilot =? 0)%Z then
    warn advisory ;;
    let q1_pilot := py_min q1_pilot (1 - eps) in
    py_truediv (1 - q0_pilot) (1 - q1_pilot)
  else
    py_truediv (IZR m_pilot * (1 - q0_pilot) + 1)
               (IZR m_pilot * (1 - q1_pilot) + 1).

(** [m / (1 + (1/p-1)*sqrt(kappa))] *)
Definition raw_m1 (m : Z) (p kappa : R) : Py R :=
  r <- py_truediv 1 p ;;
  s <- py_sqrt kappa ;;
  py_truediv (IZR m) (1 + (r - 1) * s).

(** [max(m_pilot, round(min(m-m_pilot, m1)))] *)
Definition clamp_round (m m_pilot : Z) (m1 : R) : Z :=
  py_max m_pilot (py_round (py_min_int_float (m - m_pilot) m1)).

Definition allocate_calibration_sample
    (m : Z) (p q0_pilot q1_pilot : R) (m_pilot : Z) (eps : R) : Py (Z * Z) :=
  validate m p q0_pilot q1_pilot m_pilot ;;
  m1 <- (if Rlt_dec p eps then
           ret (m - m_pilot)%Z
         else
           kappa <- compute_kappa q0_pilot q1_pilot m_pilot eps ;;
           m1 <- raw_m1 m p kappa ;;
           ret (clamp_round m m_pilot m1)) ;;
  let m0 := (m - m1)%Z in
  ret (m0, m1).

(** Running a call: the caller's warnings filter, no warning shown yet. *)
Definition run {A : Type} (c : Py A) (silence : bool) : outcome A * list string :=
  let (r, w) := c (mk_warnings_env silence []) in (r, shown w).

Definition result {A : Type} (c : Py A) : outcome A := fst (run c false).

(** The state of the warnings channel after the advisory of the
    [m_pilot = 0] branch. *)
Definition after_kappa (m_pilot : Z) (w : warnings_env) : warnings_env :=
  if (m_pilot =? 0)%Z then snd (warn advisory w) else w.

(** ** calibration.py (interface used by the allocation code and the scripts) *)

Module Calibration.

(** Modelled from the spec: the error taxonomy of the estimator and the
    interval (the module [llm_judge_reporting/calibration.py] is imported by
    the package but its text is not available). *)
Inductive error : Type :=
| InvalidInput
| DegenerateCalibration
| InvalidSampleSize.

(** Modelled from the spec: [clip(x) = max(0, min(1, x))] of
    [calibration.py]. *)
Definition clip (x : R) : R := Rmax 0 (Rmin 1 x).

(** Modelled from the spec: the discriminability [D = q0 + q1 - 1]. *)
Definition discriminability (q0 q1 : R) : R := q0 + q1 - 1.

(** Modelled from the spec: [point_estimator] of [calibration.py].  Inputs
    outside [0,1] are rejected at entry; [|D| < eps] is rejected as
    degenerate; otherwise the clipped inverse of the bias map is returned.
    [eps] is the configurable threshold. *)
Definition point_estimator (eps p q0 q1 : R) : error + R :=
  if negb (in_unit_interval p && in_unit_interval q0 && in_unit_interval q1)
  then inl InvalidInput
  else
    let D := discriminability q0 q1 in
    if Rlt_dec (Rabs D) eps then inl DegenerateCalibration
    else inr (clip ((p - 1 + q0) / D)).

(** Modelled from the spec: the first-order variance of the estimate. *)
Definition variance (p q0 q1 theta : R) (n m0 m1 : Z) : R :=
  let D := discriminability q0 q1 in
  let var_p := p * (1 - p) / IZR n in
  let var_q0 := q0 * (1 - q0) / IZR m0 in
  let var_q1 := q1 * (1 - q1) / IZR m1 in
  var_p / D ^ 2 + var_q0 * (q1 - p) ^ 2 / D ^ 4 + var_q1 * theta ^ 2 / D ^ 2.

(** Modelled from the spec: [confidence_interval] of [calibration.py].
    [norm_ppf] is the standard-normal quantile function; the estimate is
    obtained from [point_estimator], whose failure is propagated. *)
Definition confidence_interval (norm_ppf : R -> R) (eps p q0 q1 : R)
    (n m0 m1 : Z) (alpha : R) : error + (R * R) :=
  if negb (in_unit_interval p && in_unit_interval q0 && in_unit_interval q1)
  then inl InvalidInput
  else if negb (Rltb 0 alpha && Rltb alpha 1) then inl InvalidInput
  else if ((n <? 0) || (m0 <? 0) || (m1 <? 0))%Z then inl InvalidInput
  else if ((n =? 0) || (m0 =? 0) || (m1 =? 0))%Z then inl InvalidSampleSize
  else
    match point_estimator eps p q0 q1 with
    | inl e => inl e
    | inr theta =>
        let z := norm_ppf (1 - alpha / 2) in
        let half := z * sqrt (variance p q0 q1 theta n m0 m1) in
        inr (clip (theta - half), clip (theta + half))
    end.

End Calibration.

(** ** figure2_bias_adjustment.py *)

(** [expected_observed_rate] at a single [theta], over exact reals: the
    expected observed rate and the turning point where the sign of the bias
    flips (the turning point as the plain quotient). *)
Definition expected_observed_rate (theta q0 q1 : R) : R * R :=
  let p_hat := (q0 + q1 - 1) * theta + (1 - q0) in
  let turning_point := (1 - q0) / (2 - q0 - q1) in
  (p_hat, turning_point).

(** ** figure4_monte_carlo.py *)


(** ** The allocation rule as the specification words it *)

(** Clamping a real into the range [[lo, hi]]. *)
Definition clamp (lo hi x : R) : R := Rmax lo (Rmin hi x).

(** The ratio [kappa]: the prior beliefs taken as given when there is no
    pilot, the Laplace-smoothed estimate otherwise. *)
Definition kappa_spec (q0_pilot q1_pilot : R) (m_pilot : Z) (eps : R) : R :=
  if (m_pilot =? 0)%Z
  then (1 - q0_pilot) / (1 - Rmin q1_pilot (1 - eps))
  else (IZR m_pilot * (1 - q0_pilot) + 1) / (IZR m_pilot * (1 - q1_pilot) + 1).

(** The unrounded, clamped size of the sensitivity subset. *)
Definition m1_spec (m : Z) (p q0_pilot q1_pilot : R) (m_pilot : Z) (eps : R) : R :=
  clamp (IZR m_pilot) (IZR (m - m_pilot))
        (IZR m / (1 + (1 / p - 1) * sqrt (kappa_spec q0_pilot q1_pilot m_pilot eps))).


(** The divisor of [kappa] as the code computes it in either branch. *)
Definition kappa_divisor (q1_pilot : R) (m_pilot : Z) (eps : R) : R :=
  if (m_pilot =? 0)%Z
  then 1 - py_min q1_pilot (1 - eps)
  else IZR m_pilot * (1 - q1_pilot) + 1.

(** The inputs that pass the entry checks. *)
Definition passes_validation (m : Z) (p q0_pilot q1_pilot : R) (m_pilot : Z) : Prop :=
  0 <= p <= 1 /\ 0 <= q0_pilot <= 1 /\ 0 <= q1_pilot <= 1 /\
  (0 < m)%Z /\ (0 <= m_pilot)%Z.

(** ** allocation.py in floating-point arithmetic *)

Module Floating.

(** The float operations the code uses, as Python exposes them:
    [fof_int] is the conversion of an int operand ([None]: the int is too
    large, [OverflowError]); [fdiv] is [/] ([None]: the divisor is zero,
    [ZeroDivisionError]); [fsqrt] is [math.sqrt] ([None]: the argument is
    negative, [ValueError]); [fltb] is [<] between floats; [fcompare_int]
    is the exact comparison of a float with an int ([None]: not a number);
    [fround] is [round] (an error on an infinity or not-a-number). *)
Class FloatArith (F : Type) : Type := {
  fone : F;
  fof_int : Z -> option F;
  fadd : F -> F -> F;
  fsub : F -> F -> F;
  fmul : F -> F -> F;
  fdiv : F -> F -> option F;
  fsqrt : F -> option F;
  fltb : F -> F -> bool;
  fcompare_int : F -> Z -> option comparison;
  fround : F -> exn + Z
}.

Section Generic.
Context {F : Type} `{FloatArith F}.

(** An int operand of a float operation. *)
Definition py_float (z : Z) : Py F :=
  match fof_int z with
  | Some x => ret x
  | None => raise OverflowError
  end.

(** [x / y] *)
Definition truediv (x y : F) : Py F :=
  match fdiv x y with
  | Some q => ret q
  | None => raise ZeroDivisionError
  end.

(** [math.sqrt(x)] *)
Definition math_sqrt (x : F) : Py F :=
  match fsqrt x with
  | Some s => ret s
  | None => raise ValueError
  end.

(** [round(x)] on a float *)
Definition builtin_round (x : F) : Py Z :=
  match fround x with
  | inr z => ret z
  | inl e => raise e
  end.

(** The chained comparison [0 <= x <= 1] with the int bounds. *)
Definition in_unit_interval (x : F) : bool :=
  match fcompare_int x 0, fcompare_int x 1 with
  | Some (Gt | Eq), Some (Lt | Eq) => true
  | _, _ => false
  end.

(** The five [assert] statements at entry. *)
Definition validate (m : Z) (p q0_pilot q1_pilot : F) (m_pilot : Z) : Py unit :=
  py_assert (in_unit_interval p) "p must be in [0, 1]" ;;
  py_assert (in_unit_interval q0_pilot) "q0_pilot must be in [0, 1]" ;;
  py_assert (in_unit_interval q1_pilot) "q1_pilot must be in [0, 1]" ;;
  py_assert (0 <? m)%Z "m must be a positive integer" ;;
  py_assert (0 <=? m_pilot)%Z "m_pilot must be a non-negative integer".

(** [min(x, y)] on floats: the first argument unless the second is
    smaller. *)
Definition builtin_min (x y : F) : F := if fltb y x then y else x.

(** The computation of [kappa] in the general branch; [m_pilot] is
    converted where it meets a float. *)
Definition compute_kappa (q0_pilot q1_pilot : F) (m_pilot : Z) (eps : F) : Py F :=
  if (m_pilot =? 0)%Z then
    warn advisory ;;
    let q1_pilot := builtin_min q1_pilot (fsub fone eps) in
    truediv (fsub fone q0_pilot) (fsub fone q1_pilot)
  else
    a <- py_float m_pilot ;;
    let num := fadd (fmul a (fsub fone q0_pilot)) fone in
    b <- py_float m_pilot ;;
    let den := fadd (fmul b (fsub fone q1_pilot)) fone in
    truediv num den.

(** [m / (1 + (1/p-1)*sqrt(kappa))]: the divisor is evaluated first, then
    [m] is converted and divided. *)
Definition raw_m1 (m : Z) (p kappa : F) : Py F :=
  r <- truediv fone p ;;
  s <- math_sqrt kappa ;;
  let den := fadd fone (fmul (fsub r fone) s) in
  a <- py_float m ;;
  truediv a den.

(** [max(m_pilot, round(min(m-m_pilot, m1)))]: [min] returns the float
    only when it is smaller than the int, and [round] of an int is that
    int. *)
Definition clamp_round (m m_pilot : Z) (m1 : F) : Py Z :=
  v <- (match fcompare_int m1 (m - m_pilot) with
        | Some Lt => builtin_round m1
        | _ => ret (m - m_pilot)%Z
        end) ;;
  ret (py_max m_pilot v).

Definition allocate_calibration_sample
    (m : Z) (p q0_pilot q1_pilot : F) (m_pilot : Z) (eps : F) : Py (Z * Z) :=
  validate m p q0_pilot q1_pilot m_pilot ;;
  m1 <- (if fltb p eps then
           ret (m - m_pilot)%Z
         else
           kappa <- compute_kappa q0_pilot q1_pilot m_pilot eps ;;
           m1 <- raw_m1 m p kappa ;;
           clamp_round m m_pilot m1) ;;
  let m0 := (m - m1)%Z in
  ret (m0, m1).

(** The quantities of the allocation rule as the specification words
    them, evaluated in the arithmetic: [kappa] is the value of
    [(1 - q0_pilot) / (1 - min(q1_pilot, 1 - eps))] without a pilot and of
    [(m_pilot * (1 - q0_pilot) + 1) / (m_pilot * (1 - q1_pilot) + 1)] with
    one ... *)
Definition kappa_computed (q0_pilot q1_pilot : F) (m_pilot : Z) (eps kappa : F)
    : Prop :=
  if (m_pilot =? 0)%Z
  then fdiv (fsub fone q0_pilot)
            (fsub fone (builtin_min q1_pilot (fsub fone eps))) = Some kappa
  else exists b : F,
         fof_int m_pilot = Some b /\
         fdiv (fadd (fmul b (fsub fone q0_pilot)) fone)
              (fadd (fmul b (fsub fone q1_pilot)) fone) = Some kappa.

(** ... and [x] is the value of [m / (1 + (1/p - 1) * sqrt kappa)]. *)
Definition share_computed (m : Z) (p kappa x : F) : Prop :=
  exists r s a : F,
    fdiv fone p = Some r /\ fsqrt kappa = Some s /\ fof_int m = Some a /\
    fdiv a (fadd fone (fmul (fsub r fone) s)) = Some x.

End Generic.

(** *** IEEE binary64, the arithmetic of Python's [float] *)

(** The integer nearest to [n / d] (for [d > 0]), ties to the even one. *)
Definition round_half_even_ratio (n d : Z) : Z :=
  let q := (n / d)%Z in
  match (2 * (n mod d) ?= d)%Z with
  | Lt => q
  | Gt => (q + 1)%Z
  | Eq => if Z.even q then q else (q + 1)%Z
  end.

(** The exact value of a finite double as a fraction [num / den]. *)
Definition ratio_of_finite (s : bool) (m : positive) (e : Z) : Z * Z :=
  let sm := if s then Z.neg m else Z.pos m in
  match e with
  | Zneg k => (sm, 2 ^ Z.pos k)%Z
  | _ => (sm * 2 ^ e, 1)%Z
  end.

(** The exact value of a double as a fraction; [(0, 1)] for what is not a
    finite number. *)
Definition b64_ratio (x : float) : Z * Z :=
  match Prim2SF x with
  | S754_finite s m e => ratio_of_finite s m e
  | _ => (0, 1)%Z
  end.

Definition b64_value (x : float) : R :=
  let (n, d) := b64_ratio x in IZR n / IZR d.

(** The conversion of an int: correctly rounded, refused when the
    result is not finite. *)
Definition b64_of_int (z : Z) : option float :=
  let f := SF2Prim (binary_normalize prec emax z 0 false) in
  if is_infinity f then None else Some f.

Definition b64_div (x y : float) : option float :=
  if is_zero y then None else Some (PrimFloat.div x y).

Definition b64_sqrt (x : float) : option float :=
  if PrimFloat.ltb x 0%float then None else Some (PrimFloat.sqrt x).

Definition b64_compare_int (x : float) (z : Z) : option comparison :=
  match Prim2SF x with
  | S754_nan => None
  | S754_infinity s => Some (if s then Lt else Gt)
  | S754_zero _ => Some (0 ?= z)%Z
  | S754_finite s m e =>
      let (n, d) := ratio_of_finite s m e in Some (n ?= z * d)%Z
  end.

Definition b64_round (x : float) : exn + Z :=
  match Prim2SF x with
  | S754_nan => inl ValueError
  | S754_infinity _ => inl OverflowError
  | S754_zero _ => inr 0%Z
  | S754_finite s m e =>
      let (n, d) := ratio_of_finite s m e in inr (round_half_even_ratio n d)
  end.

#[export] Instance binary64 : FloatArith float := {
  fone := PrimFloat.one;
  fof_int := b64_of_int;
  fadd := PrimFloat.add;
  fsub := PrimFloat.sub;
  fmul := PrimFloat.mul;
  fdiv := b64_div;
  fsqrt := b64_sqrt;
  fltb := PrimFloat.ltb;
  fcompare_int := b64_compare_int;
  fround := b64_round
}.

(** *** Correctly rounded arithmetic over the reals *)

(** A float that is not a number, an infinity, or a finite real.  (The sign
    of a zero is not represented: the code never observes it.) *)
Inductive fl : Type :=
| NaN
| Inf (neg : bool)
| Fin (x : R).

Section Rounded.

(** [rnd] rounds a real to the format with an unbounded exponent; [fmax] is
    the largest finite float. *)
Variable rnd : R -> R.
Variable fmax : R.

(** The float that an operation with exact result [r] returns. *)
Definition finish (r : R) : fl :=
  let y := rnd r in
  if Rlt_dec fmax (Rabs y) then Inf (Rltb y 0) else Fin y.

Definition r_of_int (z : Z) : option fl :=
  match finish (IZR z) with
  | Fin y => Some (Fin y)
  | _ => None
  end.

Definition r_add (x y : fl) : fl :=
  match x, y with
  | NaN, _ | _, NaN => NaN
  | Inf s, Inf t => if Bool.eqb s t then Inf s else NaN
  | Inf s, Fin _ => Inf s
  | Fin _, Inf t => Inf t
  | Fin a, Fin b => finish (a + b)
  end.

Definition r_sub (x y : fl) : fl :=
  match x, y with
  | NaN, _ | _, NaN => NaN
  | Inf s, Inf t => if Bool.eqb s t then NaN else Inf s
  | Inf s, Fin _ => Inf s
  | Fin _, Inf t => Inf (negb t)
  | Fin a, Fin b => finish (a - b)
  end.

Definition r_mul (x y : fl) : fl :=
  match x, y with
  | NaN, _ | _, NaN => NaN
  | Inf s, Inf t => Inf (xorb s t)
  | Inf s, Fin b => if Req_dec_T b 0 then NaN else Inf (xorb s (Rltb b 0))
  | Fin a, Inf t => if Req_dec_T a 0 then NaN else Inf (xorb (Rltb a 0) t)
  | Fin a, Fin b => finish (a * b)
  end.

Definition r_div (x y : fl) : option fl :=
  match x, y with
  | _, Fin b =>
      if Req_dec_T b 0 then None
      else Some match x with
                | NaN => NaN
                | Inf s => Inf (xorb s (Rltb b 0))
                | Fin a => finish (a / b)
                end
  | NaN, _ | _, NaN => Some NaN
  | Inf _, Inf _ => Some NaN
  | Fin _, Inf _ => Some (Fin 0)
  end.

Definition r_sqrt (x : fl) : option fl :=
  match x with
  | NaN => Some NaN
  | Inf false => Some (Inf false)
  | Inf true => None
  | Fin a => if Rlt_dec a 0 then None else Some (finish (sqrt a))
  end.

Definition r_ltb (x y : fl) : bool :=
  match x, y with
  | NaN, _ | _, NaN => false
  | Inf s, Inf t => s && negb t
  | Inf s, Fin _ => s
  | Fin _, Inf t => negb t
  | Fin a, Fin b => Rltb a b
  end.

Definition r_compare_int (x : fl) (z : Z) : option comparison :=
  match x with
  | NaN => None
  | Inf s => Some (if s then Lt else Gt)
  | Fin a =>
      Some (if Rlt_dec a (IZR z) then Lt
            else if Rlt_dec (IZR z) a then Gt else Eq)
  end.

Definition r_round (x : fl) : exn + Z :=
  match x with
  | NaN => inl ValueError
  | Inf _ => inl OverflowError
  | Fin a => inr (py_round_float a)
  end.

Definition rounded : FloatArith fl := {|
  fone := Fin 1;
  fof_int := r_of_int;
  fadd := r_add;
  fsub := r_sub;
  fmul := r_mul;
  fdiv := r_div;
  fsqrt := r_sqrt;
  fltb := r_ltb;
  fcompare_int := r_compare_int;
  fround := r_round
|}.

End Rounded.

(** Signs of a float. *)
Definition positive (v : fl) : Prop :=
  match v with
  | Fin a => 0 < a
  | Inf s => s = false
  | NaN => False
  end.

Definition at_least_one (v : fl) : Prop :=
  match v with
  | Fin a => 1 <= a
  | Inf s => s = false
  | NaN => False
  end.

Definition nonnegative (v : fl) : Prop :=
  match v with
  | Fin a => 0 <= a
  | Inf s => s = false
  | NaN => False
  end.

Definition never_negative (v : fl) : Prop :=
  match v with
  | NaN => True
  | _ => nonnegative v
  end.

Definition never_zero (v : fl) : Prop :=
  match v with
  | NaN => True
  | _ => at_least_one v
  end.

(** A float accepted by the check [0 <= x <= 1]. *)
Definition unit_float (v : fl) : Prop :=
  exists x : R, v = Fin x /\ 0 <= x <= 1.

End Floating.

(** ** Basic facts about the runtime fragment *)

Lemma Rleb_true_iff (x y : R) : Rleb x y = true <-> x <= y.
Proof.
  unfold Rleb. destruct (Rle_dec x y); split; intros; congruence || lra.
Qed.

Lemma Rltb_true_iff (x y : R) : Rltb x y = true <-> x < y.
Proof.
  unfold Rltb. destruct (Rlt_dec x y); split; intros; congruence || lra.
Qed.

Lemma in_unit_interval_true_iff (x : R) :
  in_unit_interval x = true <-> 0 <= x <= 1.
Proof.
  unfold in_unit_interval.
  rewrite andb_true_iff, !Rleb_true_iff. tauto.
Qed.

Lemma py_min_Rmin (x y : R) : py_min x y = Rmin x y.
Proof.
  unfold py_min, Rmin.
  destruct (Rlt_dec y x), (Rle_dec x y); lra.
Qed.

Lemma py_max_Zmax (a b : Z) : py_max a b = Z.max a b.
Proof.
  unfold py_max. destruct (Z.ltb_spec a b); lia.
Qed.

Lemma py_truediv_ok (x y : R) (w : warnings_env) :
  y <> 0 -> py_truediv x y w = (Returned (x / y), w).
Proof.
  intros Hy. unfold py_truediv.
  destruct (Req_dec_T y 0); [contradiction | reflexivity].
Qed.

Lemma py_sqrt_ok (x : R) (w : warnings_env) :
  0 <= x -> py_sqrt x w = (Returned (sqrt x), w).
Proof.
  intros Hx. unfold py_sqrt.
  destruct (Rle_dec 0 x); [reflexivity | contradiction].
Qed.

(** *** Rounding *)

Lemma Int_part_bounds (x : R) : IZR (Int_part x) <= x < IZR (Int_part x) + 1.
Proof.
  destruct (base_Int_part x). lra.
Qed.

Lemma Int_part_IZR (z : Z) : Int_part (IZR z) = z.
Proof.
  symmetry. apply Int_part_spec. lra.
Qed.

Lemma py_round_float_cases (x : R) :
  py_round_float x = Int_part x \/ py_round_float x = (Int_part x + 1)%Z.
Proof.
  unfold py_round_float.
  destruct (Rlt_dec _ _); [tauto|].
  destruct (Rlt_dec _ _); [tauto|].
  destruct (Z.even _); tauto.
Qed.

Lemma py_round_float_nearest (x : R) :
  Rabs (IZR (py_round_float x) - x) <= 1 / 2.
Proof.
  pose proof (Int_part_bounds x) as Hb.
  unfold py_round_float.
  destruct (Rlt_dec (x - IZR (Int_part x)) (1 / 2)) as [Hlo | Hlo].
  - apply Rabs_le. lra.
  - destruct (Rlt_dec (1 / 2) (x - IZR (Int_part x))) as [Hhi | Hhi].
    + rewrite plus_IZR. apply Rabs_le. lra.
    + destruct (Z.even (Int_part x)).
      * apply Rabs_le. lra.
      * rewrite plus_IZR. apply Rabs_le. lra.
Qed.

Lemma py_round_float_unique (x : R) (k : Z) :
  IZR k - 1 / 2 < x < IZR k + 1 / 2 -> py_round_float x = k.
Proof.
  intros Hk.
  pose proof (Int_part_bounds x) as Hb.
  assert (Hn : (Int_part x = k \/ Int_part x = k - 1)%Z).
  { assert (IZR (Int_part x) < IZR (k + 1)) by (rewrite plus_IZR; lra).
    assert (IZR (k - 2) < IZR (Int_part x)) by (rewrite minus_IZR; lra).
    apply lt_IZR in H, H0. lia. }
  unfold py_round_float.
  destruct Hn as [Hn | Hn]; rewrite Hn.
  - destruct (Rlt_dec (x - IZR k) (1 / 2)); [reflexivity | lra].
  - rewrite minus_IZR.
    destruct (Rlt_dec (x - (IZR k - 1)) (1 / 2)); [lra|].
    destruct (Rlt_dec (1 / 2) (x - (IZR k - 1))); [lia | lra].
Qed.

Lemma py_round_float_IZR (z : Z) : py_round_float (IZR z) = z.
Proof.
  apply py_round_float_unique. lra.
Qed.

Lemma py_round_float_ge (x : R) (a : Z) :
  IZR a <= x -> (a <= py_round_float x)%Z.
Proof.
  intros Ha.
  pose proof (Int_part_bounds x) as Hb.
  assert (Hn : (a <= Int_part x)%Z).
  { assert (IZR a < IZR (Int_part x + 1)) by (rewrite plus_IZR; lra).
    apply lt_IZR in H. lia. }
  destruct (py_round_float_cases x); lia.
Qed.

Lemma py_round_float_le (x : R) (b : Z) :
  x <= IZR b -> (py_round_float x <= b)%Z.
Proof.
  intros Hx.
  destruct (Req_dec_T x (IZR b)) as [-> | Hne].
  - rewrite py_round_float_IZR. lia.
  - pose proof (Int_part_bounds x) as Hb.
    assert (Hn : (Int_part x < b)%Z) by (apply lt_IZR; lra).
    destruct (py_round_float_cases x); lia.
Qed.

(** The code clamps above, rounds, then clamps below; when the range is not
    empty this is rounding the value clamped into the range. *)
Lemma clamp_round_clamp (m m_pilot : Z) (x : R) :
  (2 * m_pilot <= m)%Z ->
  clamp_round m m_pilot x =
  py_round_float (clamp (IZR m_pilot) (IZR (m - m_pilot)) x).
Proof.
  intros Hfeas.
  assert (Hr : IZR m_pilot <= IZR (m - m_pilot)) by (apply IZR_le; lia).
  unfold clamp_round, py_min_int_float, clamp.
  rewrite py_max_Zmax.
  destruct (Rlt_dec x (IZR (m - m_pilot))) as [Hlt | Hge]; cbn [py_round].
  - rewrite (Rmin_right _ x) by lra.
    destruct (Rle_dec x (IZR m_pilot)) as [Hle | Hgt].
    + rewrite Rmax_left by lra. rewrite py_round_float_IZR.
      pose proof (py_round_float_le x m_pilot Hle). lia.
    + rewrite Rmax_right by lra.
      assert (IZR m_pilot <= x) by lra.
      pose proof (py_round_float_ge x m_pilot H). lia.
  - rewrite (Rmin_left _ x) by lra.
    rewrite Rmax_right by lra. rewrite py_round_float_IZR. lia.
Qed.

Lemma clamp_round_bounds (m m_pilot : Z) (x : R) :
  (m_pilot <= clamp_round m m_pilot x <= Z.max m_pilot (m - m_pilot))%Z.
Proof.
  unfold clamp_round, py_min_int_float.
  rewrite py_max_Zmax.
  destruct (Rlt_dec x (IZR (m - m_pilot))) as [Hlt | Hge]; cbn [py_round].
  - assert (Hle : x <= IZR (m - m_pilot)) by lra.
    pose proof (py_round_float_le x _ Hle). lia.
  - lia.
Qed.

(** ** Evaluating [allocate_calibration_sample] *)

Lemma validate_ok (m : Z) (p q0_pilot q1_pilot : R) (m_pilot : Z) (w : warnings_env) :
  passes_validation m p q0_pilot q1_pilot m_pilot ->
  validate m p q0_pilot q1_pilot m_pilot w = (Returned tt, w).
Proof.
  intros (Hp & Hq0 & Hq1 & Hm & Hmp).
  apply in_unit_interval_true_iff in Hp, Hq0, Hq1.
  apply Z.ltb_lt in Hm. apply Z.leb_le in Hmp.
  unfold validate, bind, py_assert.
  rewrite Hp, Hq0, Hq1, Hm, Hmp. reflexivity.
Qed.

Lemma kappa_divisor_no_pilot (q1_pilot eps : R) :
  eps <= 1 - py_min q1_pilot (1 - eps).
Proof.
  rewrite py_min_Rmin. pose proof (Rmin_r q1_pilot (1 - eps)). lra.
Qed.

Lemma kappa_divisor_pilot (q1_pilot : R) (m_pilot : Z) :
  q1_pilot <= 1 -> (0 <= m_pilot)%Z ->
  1 <= IZR m_pilot * (1 - q1_pilot) + 1.
Proof.
  intros Hq Hm. apply IZR_le in Hm. nra.
Qed.

Lemma kappa_spec_nonneg (q0_pilot q1_pilot : R) (m_pilot : Z) (eps : R) :
  q0_pilot <= 1 -> q1_pilot <= 1 -> (0 <= m_pilot)%Z -> 0 < eps ->
  0 <= kappa_spec q0_pilot q1_pilot m_pilot eps.
Proof.
  intros Hq0 Hq1 Hm He. unfold kappa_spec.
  destruct (m_pilot =? 0)%Z.
  - pose proof (kappa_divisor_no_pilot q1_pilot eps) as Hd.
    rewrite py_min_Rmin in Hd.
    apply Rmult_le_pos; [lra|].
    left. apply Rinv_0_lt_compat. lra.
  - pose proof (kappa_divisor_pilot q1_pilot m_pilot Hq1 Hm) as Hd.
    apply IZR_le in Hm.
    apply Rmult_le_pos; [nra|].
    left. apply Rinv_0_lt_compat. lra.
Qed.

Lemma compute_kappa_ok (q0_pilot q1_pilot : R) (m_pilot : Z) (eps : R)
    (w : warnings_env) :
  q1_pilot <= 1 -> (0 <= m_pilot)%Z -> 0 < eps ->
  compute_kappa q0_pilot q1_pilot m_pilot eps w =
  (Returned (kappa_spec q0_pilot q1_pilot m_pilot eps), after_kappa m_pilot w).
Proof.
  intros Hq1 Hm He. unfold compute_kappa, kappa_spec, after_kappa.
  destruct (m_pilot =? 0)%Z.
  - unfold bind. cbn [warn snd].
    pose proof (kappa_divisor_no_pilot q1_pilot eps) as Hd.
    rewrite py_truediv_ok by lra.
    rewrite py_min_Rmin. reflexivity.
  - pose proof (kappa_divisor_pilot q1_pilot m_pilot Hq1 Hm) as Hd.
    rewrite py_truediv_ok by lra. reflexivity.
Qed.

Lemma ratio_divisor_ge_1 (p kappa : R) :
  0 < p <= 1 -> 1 <= 1 + (1 / p - 1) * sqrt kappa.
Proof.
  intros Hp.
  pose proof (sqrt_pos kappa) as Hs.
  assert (1 <= 1 / p).
  { unfold Rdiv. rewrite Rmult_1_l. rewrite <- Rinv_1 at 1.
    apply Rinv_le_contravar; lra. }
  nra.
Qed.

Lemma raw_m1_ok (m : Z) (p kappa : R) (w : warnings_env) :
  0 < p <= 1 -> 0 <= kappa ->
  raw_m1 m p kappa w =
  (Returned (IZR m / (1 + (1 / p - 1) * sqrt kappa)), w).
Proof.
  intros Hp Hk. unfold raw_m1, bind.
  rewrite py_truediv_ok by lra.
  rewrite py_sqrt_ok by assumption.
  pose proof (ratio_divisor_ge_1 p kappa Hp).
  rewrite py_truediv_ok by lra. reflexivity.
Qed.

Lemma allocate_degenerate (m : Z) (p q0_pilot q1_pilot : R) (m_pilot : Z)
    (eps : R) (w : warnings_env) :
  passes_validation m p q0_pilot q1_pilot m_pilot ->
  p < eps ->
  allocate_calibration_sample m p q0_pilot q1_pilot m_pilot eps w =
  (Returned (m_pilot, (m - m_pilot)%Z), w).
Proof.
  intros Hv Hp. unfold allocate_calibration_sample, bind.
  rewrite validate_ok by assumption.
  destruct (Rlt_dec p eps); [|contradiction].
  unfold ret. do 2 f_equal. f_equal. lia.
Qed.

Lemma allocate_general (m : Z) (p q0_pilot q1_pilot : R) (m_pilot : Z)
    (eps : R) (w : warnings_env) :
  passes_validation m p q0_pilot q1_pilot m_pilot ->
  0 < eps -> eps <= p ->
  let x := IZR m / (1 + (1 / p - 1) *
                        sqrt (kappa_spec q0_pilot q1_pilot m_pilot eps)) in
  let m1 := clamp_round m m_pilot x in
  allocate_calibration_sample m p q0_pilot q1_pilot m_pilot eps w =
  (Returned ((m - m1)%Z, m1), after_kappa m_pilot w).
Proof.
  intros Hv He Hp x m1.
  pose proof Hv as (Hp01 & Hq0 & Hq1 & Hm & Hmp).
  unfold allocate_calibration_sample, bind.
  rewrite validate_ok by assumption.
  destruct (Rlt_dec p eps); [lra|].
  rewrite compute_kappa_ok by (assumption || lra).
  rewrite raw_m1_ok; [reflexivity | lra |].
  apply kappa_spec_nonneg; assumption || lra.
Qed.

Lemma shown_after_kappa (m_pilot : Z) (silence : bool) :
  shown (after_kappa m_pilot (mk_warnings_env silence [])) =
  if (m_pilot =? 0)%Z then (if silence then [] else [advisory]) else [].
Proof.
  unfold after_kappa. destruct (m_pilot =? 0)%Z; [|reflexivity].
  destruct silence; reflexivity.
Qed.

Lemma fst_run {A : Type} (c : Py A) (silence : bool) :
  fst (run c silence) = fst (c (mk_warnings_env silence [])).
Proof.
  unfold run. destruct (c _). reflexivity.
Qed.

Lemma snd_run {A : Type} (c : Py A) (silence : bool) :
  snd (run c silence) = shown (snd (c (mk_warnings_env silence []))).
Proof.
  unfold run. destruct (c _). reflexivity.
Qed.

(** ** The allocator's contract *)

(** C1 (the code departs from the claim): a pilot reservation that does not
    fit the budget, [2 * m_pilot > m], is not rejected.  With [m = 10] and
    [m_pilot = 8] the call returns a pair instead of raising: [(2, 8)] at
    [p = 1/2] and [(8, 2)] at [p = 0], each with one side below the pilot
    size the docstring promises. *)
Theorem allocate_infeasible_pilot_returns :
  result (allocate_calibration_sample 10 (1 / 2) default_q0_pilot
            default_q1_pilot 8 default_eps) = Returned (2, 8)%Z /\
  result (allocate_calibration_sample 10 0 default_q0_pilot
            default_q1_pilot 8 default_eps) = Returned (8, 2)%Z.
Proof.
  unfold result, default_q0_pilot, default_q1_pilot, default_eps.
  rewrite !fst_run. split.
  - rewrite allocate_general;
      [| unfold passes_validation; repeat split; lra || lia | lra | lra].
    cbn [fst]. unfold clamp_round, py_min_int_float.
    assert (Hk : kappa_spec (9 / 10) (9 / 10) 8 (1 / 1000000) = 1).
    { unfold kappa_spec. cbn [Z.eqb]. field. }
    rewrite Hk, sqrt_1.
    destruct (Rlt_dec _ _) as [Hlt | _].
    + exfalso. revert Hlt. cbn [Z.sub Z.add Z.opp Z.pos_sub Pos.pred_double].
      replace (10 / (1 + (1 / (1 / 2) - 1) * 1)) with 5 by field.
      cbn. lra.
    + reflexivity.
  - rewrite allocate_degenerate;
      [reflexivity | unfold passes_validation; repeat split; lra || lia | lra].
Qed.



(** C5: on every valid input with [p < eps] (in particular [p = 0], for a
    positive [eps]) the call returns exactly [(m_pilot, m - m_pilot)], and
    shows no warning. *)
Theorem allocate_degenerate_allocation (m : Z) (p q0_pilot q1_pilot : R)
    (m_pilot : Z) (eps : R) (silence : bool) :
  passes_validation m p q0_pilot q1_pilot m_pilot ->
  p < eps \/ (p = 0 /\ 0 < eps) ->
  run (allocate_calibration_sample m p q0_pilot q1_pilot m_pilot eps) silence
  = (Returned (m_pilot, (m - m_pilot)%Z), []).
Proof.
  intros Hv Hp.
  assert (Hlt : p < eps) by (destruct Hp as [? | [-> ?]]; assumption).
  unfold run. rewrite allocate_degenerate by assumption. reflexivity.
Qed.

Lemma allocate_degenerate_allocation_witness :
  run (allocate_calibration_sample 1000 0 (7 / 10) (9 / 10) 100 (1 / 1000000))
      false
  = (Returned (100, (1000 - 100))%Z, []).
Proof.
  apply (allocate_degenerate_allocation 1000 0 (7 / 10) (9 / 10) 100
           (1 / 1000000) false).
  - unfold passes_validation. repeat split; lra || lia.
  - right. split; [reflexivity | lra].
Defined.




Lemma sqrt_3_bounds : 173 / 100 < sqrt 3 < 1733 / 1000.
Proof.
  assert (H3 : sqrt 3 * sqrt 3 = 3) by (apply sqrt_sqrt; lra).
  pose proof (sqrt_pos 3). split; nra.
Qed.

(** C9: [allocate_calibration_sample(m=1000, p=0.5, q0_pilot=0.7,
    q1_pilot=0.9, m_pilot=0)] has [kappa = 3] and returns [m0 = 634],
    [m1 = 366], showing the advisory. *)
Theorem allocate_scenario_3 :
  kappa_spec (7 / 10) (9 / 10) 0 default_eps = 3 /\
  run (allocate_calibration_sample 1000 (1 / 2) (7 / 10) (9 / 10)
         default_m_pilot default_eps) false
  = (Returned (634, 366)%Z, [advisory]).
Proof.
  assert (Hk : kappa_spec (7 / 10) (9 / 10) 0 default_eps = 3).
  { unfold kappa_spec, default_eps. cbn [Z.eqb].
    rewrite Rmin_left by lra. field. }
  split; [exact Hk|].
  unfold run, default_m_pilot.
  rewrite allocate_general;
    [| unfold passes_validation; repeat split; lra || lia
     | unfold default_eps; lra | unfold default_eps; lra].
  rewrite shown_after_kappa. cbn [Z.eqb].
  rewrite Hk, clamp_round_clamp by lia.
  pose proof sqrt_3_bounds as Hs.
  set (x := IZR 1000 / (1 + (1 / (1 / 2) - 1) * sqrt 3)).
  assert (Hx : 3655 / 10 < x < 3665 / 10).
  { assert (Hd : 1 + (1 / (1 / 2) - 1) * sqrt 3 = 1 + sqrt 3) by (field_simplify; lra).
    unfold x. rewrite Hd. split.
    - apply Rmult_lt_reg_r with (1 + sqrt 3); [lra|].
      unfold Rdiv at 2. rewrite Rmult_assoc, Rinv_l by lra. lra.
    - apply Rmult_lt_reg_r with (1 + sqrt 3); [lra|].
      unfold Rdiv at 1. rewrite Rmult_assoc, Rinv_l by lra. lra. }
  assert (Hr : py_round_float (clamp (IZR 0) (IZR (1000 - 0)) x) = 366%Z).
  { unfold clamp. cbn [Z.sub Z.opp Z.add].
    rewrite Rmin_right by lra. rewrite Rmax_right by lra.
    apply py_round_float_unique. lra. }
  rewrite Hr. reflexivity.
Qed.

(** ** The estimator and the interval *)

Module CalibrationFacts.
Import Calibration.

Lemma clip_range (x : R) : 0 <= clip x <= 1.
Proof.
  unfold clip, Rmax, Rmin.
  destruct (Rle_dec 1 x); destruct (Rle_dec 0 _); lra.
Qed.

Lemma clip_id (x : R) : 0 <= x <= 1 -> clip x = x.
Proof.
  intros Hx. unfold clip, Rmax, Rmin.
  destruct (Rle_dec 1 x); destruct (Rle_dec 0 _); lra.
Qed.

Lemma clip_mono (x y : R) : x <= y -> clip x <= clip y.
Proof.
  intros Hxy. unfold clip, Rmax, Rmin.
  destruct (Rle_dec 1 x); destruct (Rle_dec 1 y);
    repeat destruct (Rle_dec 0 _); lra.
Qed.

Lemma inputs_accepted (p q0 q1 : R) :
  0 <= p <= 1 -> 0 <= q0 <= 1 -> 0 <= q1 <= 1 ->
  negb (in_unit_interval p && in_unit_interval q0 && in_unit_interval q1)
  = false.
Proof.
  intros Hp Hq0 Hq1.
  apply in_unit_interval_true_iff in Hp, Hq0, Hq1.
  rewrite Hp, Hq0, Hq1. reflexivity.
Qed.

Lemma point_estimator_ok (eps p q0 q1 : R) :
  0 <= p <= 1 -> 0 <= q0 <= 1 -> 0 <= q1 <= 1 ->
  eps <= Rabs (q0 + q1 - 1) ->
  point_estimator eps p q0 q1 = inr (clip ((p - 1 + q0) / (q0 + q1 - 1))).
Proof.
  intros Hp Hq0 Hq1 HD. unfold point_estimator, discriminability.
  rewrite inputs_accepted by assumption.
  destruct (Rlt_dec _ _); [lra | reflexivity].
Qed.

Lemma variance_nonneg (p q0 q1 theta : R) (n m0 m1 : Z) :
  0 <= p <= 1 -> 0 <= q0 <= 1 -> 0 <= q1 <= 1 ->
  q0 + q1 - 1 <> 0 ->
  (0 < n)%Z -> (0 < m0)%Z -> (0 < m1)%Z ->
  0 <= variance p q0 q1 theta n m0 m1.
Proof.
  intros Hp Hq0 Hq1 HD Hn Hm0 Hm1.
  apply IZR_lt in Hn, Hm0, Hm1.
  unfold variance, discriminability.
  set (D := q0 + q1 - 1) in *.
  assert (HD2 : 0 < D ^ 2) by (destruct (Rdichotomy _ _ HD); nra).
  assert (HD4 : 0 < D ^ 4) by (replace (D ^ 4) with (D ^ 2 * D ^ 2) by ring; nra).
  assert (Hdiv : forall a b, 0 <= a -> 0 < b -> 0 <= a / b).
  { intros a b Ha Hb. apply Rmult_le_pos; [assumption|].
    left. apply Rinv_0_lt_compat. assumption. }
  assert (0 <= p * (1 - p) / IZR n) by (apply Hdiv; nra).
  assert (0 <= q0 * (1 - q0) / IZR m0) by (apply Hdiv; nra).
  assert (0 <= q1 * (1 - q1) / IZR m1) by (apply Hdiv; nra).
  assert (0 <= (q1 - p) ^ 2) by apply pow2_ge_0.
  assert (0 <= theta ^ 2) by apply pow2_ge_0.
  repeat apply Rplus_le_le_0_compat; apply Hdiv; try assumption;
    apply Rmult_le_pos; assumption.
Qed.

(** C3, as stated, fails: sensitivities within [eps] of chance are
    rejected although [q0 + q1 <> 1]. *)
Lemma round_trip_fails_below_threshold :
  let theta := 1 / 2 in
  let q0 := 1 / 2 in
  let q1 := 1 / 2 + 1 / 10000000 in
  (0 <= theta <= 1 /\ 0 < q0 < 1 /\ 0 < q1 < 1 /\ q0 + q1 <> 1) /\
  point_estimator default_eps (fst (expected_observed_rate theta q0 q1)) q0 q1
  <> inr (clip theta).
Proof.
  cbv zeta. split; [lra|].
  unfold point_estimator, discriminability, expected_observed_rate, default_eps.
  cbn [fst].
  rewrite inputs_accepted by lra.
  destruct (Rlt_dec _ _) as [_ | Hn]; [discriminate|].
  exfalso. apply Hn. rewrite Rabs_pos_eq; lra.
Qed.

(** C3 (amended): for [theta] in [[0,1]] and [q0], [q1] in [(0,1)] whose
    discriminability is at least the threshold in absolute value (and not
    zero), the estimator applied to the expected observed rate returns
    [clip theta], which is [theta]. *)
Theorem point_estimator_round_trip (eps theta q0 q1 : R) :
  0 <= theta <= 1 ->
  0 < q0 < 1 -> 0 < q1 < 1 ->
  q0 + q1 <> 1 ->
  eps <= Rabs (q0 + q1 - 1) ->
  point_estimator eps (fst (expected_observed_rate theta q0 q1)) q0 q1
  = inr (clip theta) /\
  clip theta = theta.
Proof.
  intros Ht Hq0 Hq1 Hne HD.
  unfold expected_observed_rate. cbn [fst].
  split; [| apply clip_id; assumption].
  rewrite point_estimator_ok; [| nra | lra | lra | assumption].
  do 2 f_equal. field. lra.
Qed.

Lemma point_estimator_round_trip_witness :
  point_estimator (1 / 1000000)
    (fst (expected_observed_rate (1 / 3) (7 / 10) (9 / 10))) (7 / 10) (9 / 10)
  = inr (clip (1 / 3)) /\
  clip (1 / 3) = 1 / 3.
Proof.
  apply (point_estimator_round_trip (1 / 1000000) (1 / 3) (7 / 10) (9 / 10)).
  - lra.
  - lra.
  - lra.
  - lra.
  - rewrite Rabs_pos_eq; lra.
Defined.

(** C8: whenever [|q0 + q1 - 1| < eps] the estimator returns no number, and
    on inputs in [[0,1]] the failure is [DegenerateCalibration]. *)
Theorem point_estimator_degenerate (eps p q0 q1 : R) :
  Rabs (q0 + q1 - 1) < eps ->
  (forall x : R, point_estimator eps p q0 q1 <> inr x) /\
  (0 <= p <= 1 -> 0 <= q0 <= 1 -> 0 <= q1 <= 1 ->
   point_estimator eps p q0 q1 = inl DegenerateCalibration).
Proof.
  intros HD. unfold point_estimator, discriminability. split.
  - intros x. destruct (negb _); [discriminate|].
    destruct (Rlt_dec _ _); [discriminate | contradiction].
  - intros Hp Hq0 Hq1. rewrite inputs_accepted by assumption.
    destruct (Rlt_dec _ _); [reflexivity | contradiction].
Qed.

Lemma point_estimator_degenerate_witness :
  point_estimator default_eps (1 / 2) (1 / 2) (1 / 2)
  = inl DegenerateCalibration.
Proof.
  apply (point_estimator_degenerate default_eps (1 / 2) (1 / 2) (1 / 2)).
  - unfold default_eps.
    replace (1 / 2 + 1 / 2 - 1) with 0 by field.
    rewrite Rabs_R0. lra.
  - lra.
  - lra.
  - lra.
Defined.

(** C7: for probabilities in [[0,1]] with [|q0 + q1 - 1| >= eps], positive
    sample sizes and [alpha] in [(0,1)], the interval is returned as a pair
    [(lo, hi)] with [lo <= theta_hat <= hi] for
    [theta_hat = point_estimator p q0 q1], and [lo], [hi] in [[0,1]].  The
    normal quantile is assumed non-negative above the median. *)
Theorem confidence_interval_brackets (norm_ppf : R -> R) (eps p q0 q1 : R)
    (n m0 m1 : Z) (alpha : R) :
  (forall u : R, 1 / 2 < u < 1 -> 0 <= norm_ppf u) ->
  0 < eps ->
  0 <= p <= 1 -> 0 <= q0 <= 1 -> 0 <= q1 <= 1 ->
  eps <= Rabs (q0 + q1 - 1) ->
  (0 < n)%Z -> (0 < m0)%Z -> (0 < m1)%Z ->
  0 < alpha < 1 ->
  exists theta_hat lo hi : R,
    point_estimator eps p q0 q1 = inr theta_hat /\
    confidence_interval norm_ppf eps p q0 q1 n m0 m1 alpha = inr (lo, hi) /\
    0 <= variance p q0 q1 theta_hat n m0 m1 /\
    lo <= theta_hat <= hi /\
    0 <= lo <= 1 /\ 0 <= hi <= 1.
Proof.
  intros Hz He Hp Hq0 Hq1 HD Hn Hm0 Hm1 Ha.
  assert (HD0 : q0 + q1 - 1 <> 0).
  { intros H0. rewrite H0, Rabs_R0 in HD. lra. }
  set (theta_hat := clip ((p - 1 + q0) / (q0 + q1 - 1))).
  set (half := norm_ppf (1 - alpha / 2) *
               sqrt (variance p q0 q1 theta_hat n m0 m1)).
  exists theta_hat, (clip (theta_hat - half)), (clip (theta_hat + half)).
  assert (Hpe : point_estimator eps p q0 q1 = inr theta_hat)
    by (apply point_estimator_ok; assumption).
  split; [exact Hpe|].
  split.
  - unfold confidence_interval.
    rewrite inputs_accepted by assumption.
    assert (Ha1 : Rltb 0 alpha = true) by (apply Rltb_true_iff; lra).
    assert (Ha2 : Rltb alpha 1 = true) by (apply Rltb_true_iff; lra).
    rewrite Ha1, Ha2. cbn [andb negb].
    assert (Hneg : ((n <? 0) || (m0 <? 0) || (m1 <? 0))%Z = false).
    { rewrite !orb_false_iff, !Z.ltb_ge. lia. }
    assert (Hzero : ((n =? 0) || (m0 =? 0) || (m1 =? 0))%Z = false).
    { rewrite !orb_false_iff, !Z.eqb_neq. lia. }
    rewrite Hneg, Hzero, Hpe. reflexivity.
  - split; [apply variance_nonneg; assumption|].
    assert (Hhalf : 0 <= half).
    { apply Rmult_le_pos; [apply Hz; lra | apply sqrt_pos]. }
    pose proof (clip_range ((p - 1 + q0) / (q0 + q1 - 1))) as Hth.
    fold theta_hat in Hth.
    pose proof (clip_mono (theta_hat - half) theta_hat) as Hlo.
    pose proof (clip_mono theta_hat (theta_hat + half)) as Hhi.
    rewrite (clip_id theta_hat Hth) in Hlo, Hhi.
    pose proof (clip_range (theta_hat - half)).
    pose proof (clip_range (theta_hat + half)).
    repeat split; lra.
Qed.

Lemma confidence_interval_brackets_witness :
  exists theta_hat lo hi : R,
    point_estimator (1 / 1000000) (1 / 2) (7 / 10) (9 / 10) = inr theta_hat /\
    confidence_interval (fun _ => 196 / 100) (1 / 1000000) (1 / 2) (7 / 10)
      (9 / 10) 1000000 500 500 (5 / 100) = inr (lo, hi) /\
    0 <= variance (1 / 2) (7 / 10) (9 / 10) theta_hat 1000000 500 500 /\
    lo <= theta_hat <= hi /\
    0 <= lo <= 1 /\ 0 <= hi <= 1.
Proof.
  apply (confidence_interval_brackets (fun _ => 196 / 100) (1 / 1000000)
           (1 / 2) (7 / 10) (9 / 10) 1000000 500 500 (5 / 100)).
  - intros u _. lra.
  - lra.
  - lra.
  - lra.
  - lra.
  - rewrite Rabs_pos_eq; lra.
  - lia.
  - lia.
  - lia.
  - lra.
Defined.

End CalibrationFacts.

(** ** Further behaviour of [allocate_calibration_sample] *)

Lemma in_unit_interval_false (x : R) :
  ~ 0 <= x <= 1 -> in_unit_interval x = false.
Proof.
  intros Hx. apply not_true_iff_false.
  rewrite in_unit_interval_true_iff. assumption.
Qed.

Lemma kappa_divisor_nonneg (q1_pilot : R) (m_pilot : Z) (eps : R) :
  q1_pilot <= 1 -> (0 <= m_pilot)%Z ->
  0 <= kappa_divisor q1_pilot m_pilot eps.
Proof.
  intros Hq Hm. unfold kappa_divisor.
  destruct (m_pilot =? 0)%Z.
  - rewrite py_min_Rmin. pose proof (Rmin_l q1_pilot (1 - eps)). lra.
  - pose proof (kappa_divisor_pilot q1_pilot m_pilot Hq Hm). lra.
Qed.

Lemma kappa_spec_divisor (q0_pilot q1_pilot : R) (m_pilot : Z) (eps : R) :
  kappa_spec q0_pilot q1_pilot m_pilot eps =
  (if (m_pilot =? 0)%Z then 1 - q0_pilot
   else IZR m_pilot * (1 - q0_pilot) + 1) /
  kappa_divisor q1_pilot m_pilot eps.
Proof.
  unfold kappa_spec, kappa_divisor.
  destruct (m_pilot =? 0)%Z; [rewrite py_min_Rmin|]; reflexivity.
Qed.

Lemma kappa_spec_nonneg_gen (q0_pilot q1_pilot : R) (m_pilot : Z) (eps : R) :
  q0_pilot <= 1 -> q1_pilot <= 1 -> (0 <= m_pilot)%Z ->
  kappa_divisor q1_pilot m_pilot eps <> 0 ->
  0 <= kappa_spec q0_pilot q1_pilot m_pilot eps.
Proof.
  intros Hq0 Hq1 Hm Hd.
  pose proof (kappa_divisor_nonneg q1_pilot m_pilot eps Hq1 Hm) as Hd0.
  rewrite kappa_spec_divisor.
  apply Rmult_le_pos.
  - destruct (m_pilot =? 0)%Z; [lra|]. apply IZR_le in Hm. nra.
  - left. apply Rinv_0_lt_compat. lra.
Qed.

Lemma compute_kappa_run (q0_pilot q1_pilot : R) (m_pilot : Z) (eps : R)
    (w : warnings_env) :
  compute_kappa q0_pilot q1_pilot m_pilot eps w =
  (if Req_dec_T (kappa_divisor q1_pilot m_pilot eps) 0
   then Raised ZeroDivisionError
   else Returned (kappa_spec q0_pilot q1_pilot m_pilot eps),
   after_kappa m_pilot w).
Proof.
  unfold compute_kappa, kappa_spec, kappa_divisor, after_kappa, py_truediv, bind.
  destruct (m_pilot =? 0)%Z; cbn [warn snd].
  - rewrite py_min_Rmin. destruct (Req_dec_T _ 0); reflexivity.
  - destruct (Req_dec_T _ 0); reflexivity.
Qed.

(** What a call does on an input that passes the entry checks, for any
    [eps]. *)
Lemma allocate_valid_run (m : Z) (p q0_pilot q1_pilot : R) (m_pilot : Z)
    (eps : R) (w : warnings_env) :
  passes_validation m p q0_pilot q1_pilot m_pilot ->
  allocate_calibration_sample m p q0_pilot q1_pilot m_pilot eps w =
  if Rlt_dec p eps then (Returned (m_pilot, (m - m_pilot)%Z), w)
  else if Req_dec_T (kappa_divisor q1_pilot m_pilot eps) 0
       then (Raised ZeroDivisionError, after_kappa m_pilot w)
  else if Req_dec_T p 0
       then (Raised ZeroDivisionError, after_kappa m_pilot w)
  else
    let x := IZR m / (1 + (1 / p - 1) *
                          sqrt (kappa_spec q0_pilot q1_pilot m_pilot eps)) in
    let m1 := clamp_round m m_pilot x in
    (Returned ((m - m1)%Z, m1), after_kappa m_pilot w).
Proof.
  intros Hv.
  destruct (Rlt_dec p eps) as [Hlt | Hge].
  - apply allocate_degenerate; assumption.
  - pose proof Hv as (Hp & Hq0 & Hq1 & Hm & Hmp).
    unfold allocate_calibration_sample, bind.
    rewrite validate_ok by assumption.
    destruct (Rlt_dec p eps); [contradiction|].
    rewrite compute_kappa_run.
    destruct (Req_dec_T (kappa_divisor q1_pilot m_pilot eps) 0) as [Hz | Hnz];
      [reflexivity|].
    destruct (Req_dec_T p 0) as [Hp0 | Hp0].
    + unfold raw_m1, bind, py_truediv.
      destruct (Req_dec_T p 0); [reflexivity | contradiction].
    + rewrite raw_m1_ok; [reflexivity | lra |].
      apply kappa_spec_nonneg_gen; assumption || lra.
Qed.

(** X1: the entry checks are tried in the order [p], [q0_pilot],
    [q1_pilot], [m], [m_pilot]; the first one that fails decides the message
    of the [AssertionError], no warning is shown, and an input that passes
    all five never raises an [AssertionError]. *)
Theorem allocate_rejects_invalid_input (m : Z) (p q0_pilot q1_pilot : R)
    (m_pilot : Z) (eps : R) (silence : bool) :
  let call :=
    run (allocate_calibration_sample m p q0_pilot q1_pilot m_pilot eps)
        silence in
  let rejected msg := call = (Raised (AssertionError msg), []) in
  (~ 0 <= p <= 1 -> rejected "p must be in [0, 1]"%string) /\
  (0 <= p <= 1 -> ~ 0 <= q0_pilot <= 1 ->
   rejected "q0_pilot must be in [0, 1]"%string) /\
  (0 <= p <= 1 -> 0 <= q0_pilot <= 1 -> ~ 0 <= q1_pilot <= 1 ->
   rejected "q1_pilot must be in [0, 1]"%string) /\
  (0 <= p <= 1 -> 0 <= q0_pilot <= 1 -> 0 <= q1_pilot <= 1 -> (m <= 0)%Z ->
   rejected "m must be a positive integer"%string) /\
  (0 <= p <= 1 -> 0 <= q0_pilot <= 1 -> 0 <= q1_pilot <= 1 -> (0 < m)%Z ->
   (m_pilot < 0)%Z ->
   rejected "m_pilot must be a non-negative integer"%string) /\
  (passes_validation m p q0_pilot q1_pilot m_pilot ->
   forall msg, fst call <> Raised (AssertionError msg)).
Proof.
  cbv zeta.
  unfold run, allocate_calibration_sample, validate, bind, py_assert.
  repeat split.
  - intros Hp. rewrite (in_unit_interval_false p Hp). reflexivity.
  - intros Hp Hq0. apply in_unit_interval_true_iff in Hp.
    rewrite Hp, (in_unit_interval_false q0_pilot Hq0). reflexivity.
  - intros Hp Hq0 Hq1. apply in_unit_interval_true_iff in Hp, Hq0.
    rewrite Hp, Hq0, (in_unit_interval_false q1_pilot Hq1). reflexivity.
  - intros Hp Hq0 Hq1 Hm. apply in_unit_interval_true_iff in Hp, Hq0, Hq1.
    apply Z.ltb_ge in Hm. rewrite Hp, Hq0, Hq1, Hm. reflexivity.
  - intros Hp Hq0 Hq1 Hm Hmp. apply in_unit_interval_true_iff in Hp, Hq0, Hq1.
    apply Z.ltb_lt in Hm. apply Z.leb_gt in Hmp.
    rewrite Hp, Hq0, Hq1, Hm, Hmp. reflexivity.
  - intros Hv msg.
    fold (bind (A := unit) (B := unit)).
    pose proof (allocate_valid_run m p q0_pilot q1_pilot m_pilot eps
                  (mk_warnings_env silence []) Hv) as Hrun.
    unfold allocate_calibration_sample, validate, bind, py_assert in Hrun.
    rewrite Hrun.
    repeat destruct (Rlt_dec _ _) || destruct (Req_dec_T _ _);
      cbn; discriminate.
Qed.

(** *** More on rounding and clamping *)



(** The clamping and rounding step with its two cases spelled out. *)
Lemma clamp_round_unfold (m m_pilot : Z) (x : R) :
  clamp_round m m_pilot x =
  py_max m_pilot
    (if Rlt_dec x (IZR (m - m_pilot)) then py_round_float x
     else (m - m_pilot)%Z).
Proof.
  unfold clamp_round, py_min_int_float.
  destruct (Rlt_dec x (IZR (m - m_pilot))); reflexivity.
Qed.

(** *** The unrounded share as a function of [p] and [kappa] *)








(** *** The share as a function of the beliefs *)










(** ** The interval for the raw observed rate *)









(** ** The allocator in floating-point arithmetic *)

Module FloatingFacts.
Import Floating.

(** *** The warnings channel, in any arithmetic *)

Section AnyArithmetic.

Context {F : Type} `{FloatArith F}.

Lemma validate_state (m : Z) (p q0_pilot q1_pilot : F) (m_pilot : Z)
    (w : warnings_env) :
  Floating.validate m p q0_pilot q1_pilot m_pilot w =
  (fst (Floating.validate m p q0_pilot q1_pilot m_pilot w), w) /\
  (fst (Floating.validate m p q0_pilot q1_pilot m_pilot w) = Returned tt <->
   in_unit_interval p && in_unit_interval q0_pilot &&
   in_unit_interval q1_pilot && (0 <? m)%Z && (0 <=? m_pilot)%Z = true).
Proof.
  unfold Floating.validate, bind, py_assert.
  destruct (in_unit_interval p), (in_unit_interval q0_pilot),
    (in_unit_interval q1_pilot), (0 <? m)%Z, (0 <=? m_pilot)%Z;
    cbn; split; try reflexivity; split; intros; congruence.
Qed.

Lemma raw_m1_state (m : Z) (p kappa : F) (w : warnings_env) :
  snd (Floating.raw_m1 m p kappa w) = w.
Proof.
  unfold Floating.raw_m1, bind, truediv, math_sqrt, py_float.
  destruct (fdiv fone p); [| reflexivity]. cbn.
  destruct (fsqrt kappa); [| reflexivity]. cbn.
  destruct (fof_int m); [| reflexivity]. cbn.
  destruct (fdiv _ _); reflexivity.
Qed.

Lemma clamp_round_state (m m_pilot : Z) (v : F) (w : warnings_env) :
  snd (Floating.clamp_round m m_pilot v w) = w.
Proof.
  unfold Floating.clamp_round, bind, builtin_round.
  destruct (fcompare_int v (m - m_pilot)) as [[| |] |]; try reflexivity.
  destruct (fround v); reflexivity.
Qed.

Lemma compute_kappa_state (q0_pilot q1_pilot : F) (m_pilot : Z) (eps : F)
    (w : warnings_env) :
  snd (Floating.compute_kappa q0_pilot q1_pilot m_pilot eps w)
  = after_kappa m_pilot w.
Proof.
  unfold Floating.compute_kappa, after_kappa, bind, truediv, py_float.
  destruct (m_pilot =? 0)%Z.
  - cbn [warn snd]. destruct (fdiv _ _); reflexivity.
  - destruct (fof_int m_pilot); [| reflexivity]. cbn.
    destruct (fdiv _ _); reflexivity.
Qed.

(** What a call leaves in the warnings channel. *)
Lemma allocate_state (m : Z) (p q0_pilot q1_pilot : F) (m_pilot : Z) (eps : F)
    (w : warnings_env) :
  snd (Floating.allocate_calibration_sample m p q0_pilot q1_pilot m_pilot
         eps w) =
  if in_unit_interval p && in_unit_interval q0_pilot &&
     in_unit_interval q1_pilot && (0 <? m)%Z && (0 <=? m_pilot)%Z &&
     negb (fltb p eps)
  then after_kappa m_pilot w else w.
Proof.
  destruct (validate_state m p q0_pilot q1_pilot m_pilot w) as [Hst Hok].
  unfold Floating.allocate_calibration_sample, bind at 1.
  rewrite Hst.
  destruct (fst (Floating.validate m p q0_pilot q1_pilot m_pilot w))
    as [[] | e] eqn:Hv.
  - rewrite (proj1 Hok eq_refl). cbn [andb].
    unfold bind at 1.
    destruct (fltb p eps); cbn [negb]; [reflexivity|].
    unfold bind at 1.
    pose proof (compute_kappa_state q0_pilot q1_pilot m_pilot eps w) as Hk.
    destruct (Floating.compute_kappa q0_pilot q1_pilot m_pilot eps w)
      as [[kappa | e] w1]; cbn [snd] in Hk; subst w1; [| reflexivity].
    unfold bind at 1.
    pose proof (raw_m1_state m p kappa (after_kappa m_pilot w)) as Hr.
    destruct (Floating.raw_m1 m p kappa (after_kappa m_pilot w))
      as [[v | e] w2]; cbn [snd] in Hr; subst w2; [| reflexivity].
    pose proof (clamp_round_state m m_pilot v (after_kappa m_pilot w)) as Hc.
    destruct (Floating.clamp_round m m_pilot v (after_kappa m_pilot w))
      as [[z | e] w3]; cbn [snd] in Hc; subst w3; reflexivity.
  - assert (Hb : in_unit_interval p && in_unit_interval q0_pilot &&
                 in_unit_interval q1_pilot && (0 <? m)%Z && (0 <=? m_pilot)%Z
                 = false).
    { apply not_true_iff_false. intros Hb. apply Hok in Hb. discriminate. }
    rewrite Hb. reflexivity.
Qed.

Lemma bind_outcome_independent {A B : Type} (c : Py A) (k : A -> Py B) :
  (forall w w', fst (c w) = fst (c w')) ->
  (forall a w w', fst (k a w) = fst (k a w')) ->
  forall w w', fst (bind c k w) = fst (bind c k w').
Proof.
  intros Hc Hk w w'. unfold bind. specialize (Hc w w').
  destruct (c w) as [[a | e] w1], (c w') as [[a' | e'] w1']; cbn in Hc;
    try discriminate; inversion Hc; subst; cbn; auto.
Qed.

(** The outcome of a call does not depend on the warnings channel. *)
Lemma allocate_outcome_independent (m : Z) (p q0_pilot q1_pilot : F)
    (m_pilot : Z) (eps : F) (w w' : warnings_env) :
  fst (Floating.allocate_calibration_sample m p q0_pilot q1_pilot m_pilot
         eps w) =
  fst (Floating.allocate_calibration_sample m p q0_pilot q1_pilot m_pilot
         eps w').
Proof.
  revert w w'.
  unfold Floating.allocate_calibration_sample, Floating.validate,
    Floating.compute_kappa, Floating.raw_m1, Floating.clamp_round.
  repeat first
    [ apply bind_outcome_independent; intros
    | reflexivity
    | match goal with
      | |- forall _ _, fst ((if ?c then _ else _) _) = _ => destruct c
      | |- forall _ _, fst (match ?c with _ => _ end _) = _ => destruct c
      | |- fst ((if ?c then _ else _) _) = _ => destruct c
      | |- fst (match ?c with _ => _ end _) = _ => destruct c
      end
    | progress unfold builtin_round, py_float, truediv, math_sqrt, py_assert ].
Qed.

End AnyArithmetic.

Section RoundedFacts.

Variable rnd : R -> R.
Variable fmax : R.
Hypothesis rnd_mono : forall x y : R, x <= y -> rnd x <= rnd y.
Hypothesis rnd_0 : rnd 0 = 0.
Hypothesis rnd_1 : rnd 1 = 1.
Hypothesis fmax_ge_1 : 1 <= fmax.

Local Abbreviation ops := (rounded rnd fmax).
Local Abbreviation rsub := (r_sub rnd fmax).
Local Abbreviation radd := (r_add rnd fmax).
Local Abbreviation rmul := (r_mul rnd fmax).
Local Abbreviation rdiv := (r_div rnd fmax).
Local Abbreviation rsqrt := (r_sqrt rnd fmax).
Local Abbreviation rint := (r_of_int rnd fmax).
Local Abbreviation finish := (finish rnd fmax).

Lemma finish_above (c r : R) :
  0 <= c -> rnd c = c -> c <= r ->
  finish r = Inf false \/ (finish r = Fin (rnd r) /\ c <= rnd r).
Proof.
  intros Hc Hcc Hr. pose proof (rnd_mono c r Hr) as Hm. rewrite Hcc in Hm.
  unfold Floating.finish.
  destruct (Rlt_dec fmax (Rabs (rnd r))); [left | right; tauto].
  f_equal. unfold Rltb. destruct (Rlt_dec (rnd r) 0); [lra | reflexivity].
Qed.

Lemma finish_nonnegative (r : R) : 0 <= r -> nonnegative (finish r).
Proof.
  intros Hr. destruct (finish_above 0 r (Rle_refl 0) rnd_0 Hr) as [-> | [-> ?]];
    cbn; tauto.
Qed.

Lemma finish_at_least_one (r : R) : 1 <= r -> at_least_one (finish r).
Proof.
  intros Hr.
  destruct (finish_above 1 r ltac:(lra) rnd_1 Hr) as [-> | [-> ?]];
    cbn; tauto.
Qed.

Lemma finish_unit (r : R) :
  0 <= r <= 1 -> finish r = Fin (rnd r) /\ 0 <= rnd r <= 1.
Proof.
  intros [H0 H1].
  pose proof (rnd_mono 0 r H0) as Hlo. pose proof (rnd_mono r 1 H1) as Hhi.
  rewrite rnd_0 in Hlo. rewrite rnd_1 in Hhi.
  unfold Floating.finish.
  destruct (Rlt_dec fmax (Rabs (rnd r))) as [Hbig | _]; [| tauto].
  rewrite Rabs_pos_eq in Hbig by assumption. lra.
Qed.

(** The rounded value behind a positive result. *)
Lemma finish_positive_rnd (r : R) : positive (finish r) -> 0 < rnd r.
Proof.
  unfold Floating.finish.
  destruct (Rlt_dec fmax (Rabs (rnd r))) as [Hbig | _]; cbn; [| tauto].
  unfold Rltb. destruct (Rlt_dec (rnd r) 0); [discriminate|].
  intros _. rewrite Rabs_pos_eq in Hbig by lra. lra.
Qed.

Lemma finish_positive (d r : R) :
  0 < rnd d -> d <= r -> positive (finish r).
Proof.
  intros Hd Hr. pose proof (rnd_mono d r Hr) as Hm.
  unfold Floating.finish.
  destruct (Rlt_dec fmax (Rabs (rnd r))); cbn; [| lra].
  unfold Rltb. destruct (Rlt_dec (rnd r) 0); [lra | reflexivity].
Qed.

Lemma in_unit_interval_unit_float (v : fl) :
  in_unit_interval (H := ops) v = true <-> unit_float v.
Proof.
  unfold in_unit_interval, unit_float. cbn.
  destruct v as [| s | x]; cbn.
  - split; [discriminate | intros (x & Hx & _); discriminate].
  - split; [destruct s; discriminate | intros (x & Hx & _); discriminate].
  - split.
    + intros H. exists x. split; [reflexivity|].
      destruct (Rlt_dec x (IZR 0)); [discriminate|].
      destruct (Rlt_dec x (IZR 1)); [lra|].
      destruct (Rlt_dec (IZR 1) x); [| lra].
      destruct (Rlt_dec (IZR 0) x); discriminate.
    + intros (y & Hy & H0 & H1). injection Hy as <-.
      destruct (Rlt_dec x (IZR 0)); [lra|].
      destruct (Rlt_dec (IZR 0) x);
        destruct (Rlt_dec x (IZR 1)); try reflexivity;
        destruct (Rlt_dec (IZR 1) x); try reflexivity; lra.
Qed.

Lemma one_minus_unit (v : fl) :
  unit_float v -> unit_float (rsub (Fin 1) v).
Proof.
  intros (x & -> & Hx). cbn.
  destruct (finish_unit (1 - x) ltac:(lra)) as [-> Hr].
  eexists. split; [reflexivity | assumption].
Qed.

Lemma validate_returns (m : Z) (p q0_pilot q1_pilot : fl) (m_pilot : Z)
    (w : warnings_env) :
  unit_float p -> unit_float q0_pilot -> unit_float q1_pilot ->
  (0 < m)%Z -> (0 <= m_pilot)%Z ->
  Floating.validate (H := ops) m p q0_pilot q1_pilot m_pilot w
  = (Returned tt, w).
Proof.
  intros Hp Hq0 Hq1 Hm Hmp.
  apply in_unit_interval_unit_float in Hp, Hq0, Hq1.
  apply Z.ltb_lt in Hm. apply Z.leb_le in Hmp.
  unfold Floating.validate, bind, py_assert.
  rewrite Hp, Hq0, Hq1, Hm, Hmp. reflexivity.
Qed.

Lemma rint_at_least_one (z : Z) :
  (1 <= z)%Z -> rint z <> None ->
  exists a : R, rint z = Some (Fin a) /\ 1 <= a.
Proof.
  intros Hz Hconv. apply IZR_le in Hz.
  unfold r_of_int in *.
  destruct (finish_above 1 (IZR z) ltac:(lra) rnd_1 Hz) as [Hi | [Hf Hge]].
  - rewrite Hi in Hconv. contradiction.
  - rewrite Hf. eexists. split; [reflexivity | assumption].
Qed.

Lemma kappa_divisor_positive (q1_pilot eps : fl) :
  unit_float q1_pilot ->
  positive (rsub (Fin 1) (rsub (Fin 1) eps)) ->
  positive (rsub (Fin 1)
              (builtin_min (H := ops) q1_pilot (rsub (Fin 1) eps))).
Proof.
  intros (x & -> & Hx) H. unfold builtin_min. cbn [fltb rounded fsub].
  destruct (rsub (Fin 1) eps) as [| s | y] eqn:Ha.
  - cbn in H. contradiction.
  - cbn in H. destruct s; [| discriminate]. cbn. reflexivity.
  - cbn [r_ltb]. unfold Rltb.
    destruct (Rlt_dec y x) as [Hlt | Hge]; [exact H|].
    cbn in H. cbn.
    apply finish_positive with (d := 1 - y);
      [apply finish_positive_rnd; assumption | lra].
Qed.

Lemma div_by_positive (u : R) (d : fl) :
  0 <= u -> positive d ->
  exists k : fl, rdiv (Fin u) d = Some k /\ nonnegative k.
Proof.
  intros Hu Hd. destruct d as [| s | z]; cbn in Hd; [contradiction | |].
  - subst s. cbn. eexists. split; [reflexivity|]. cbn. lra.
  - cbn. destruct (Req_dec_T z 0); [lra|].
    eexists. split; [reflexivity|].
    apply finish_nonnegative.
    apply Rmult_le_pos; [assumption|]. left. apply Rinv_0_lt_compat. assumption.
Qed.

Lemma laplace_term (a u : R) :
  1 <= a -> 0 <= u <= 1 ->
  at_least_one (radd (rmul (Fin a) (Fin u)) (Fin 1)).
Proof.
  intros Ha Hu. cbn [r_mul].
  assert (Hau : 0 <= a * u) by nra.
  destruct (finish_above 0 (a * u) (Rle_refl 0) rnd_0 Hau) as [-> | [-> Hge]].
  - cbn. reflexivity.
  - cbn [r_add]. apply finish_at_least_one. lra.
Qed.

Lemma nonnegative_never_negative (v : fl) : nonnegative v -> never_negative v.
Proof. destruct v; cbn; tauto. Qed.

Lemma div_at_least_one (n d : fl) :
  at_least_one n -> at_least_one d ->
  exists k : fl, rdiv n d = Some k /\ never_negative k.
Proof.
  intros Hn Hd.
  destruct n as [| s | nz]; cbn in Hn; [contradiction | |];
    destruct d as [| t | dz]; cbn in Hd; try contradiction.
  - cbn. eexists. split; [reflexivity | exact I].
  - subst s. cbn. destruct (Req_dec_T dz 0); [lra|].
    eexists. split; [reflexivity|].
    cbn. unfold Rltb. destruct (Rlt_dec dz 0); [lra | reflexivity].
  - cbn. eexists. split; [reflexivity|]. cbn. lra.
  - cbn. destruct (Req_dec_T dz 0); [lra|].
    eexists. split; [reflexivity|].
    apply nonnegative_never_negative, finish_nonnegative.
    apply Rmult_le_pos; [lra|]. left. apply Rinv_0_lt_compat. lra.
Qed.

Lemma sqrt_never_negative (k : fl) :
  never_negative k ->
  exists s : fl, rsqrt k = Some s /\ never_negative s.
Proof.
  intros Hk. destruct k as [| t | a]; cbn in Hk.
  - cbn. eexists. split; [reflexivity | exact I].
  - subst t. cbn. eexists. split; [reflexivity | reflexivity].
  - cbn. destruct (Rlt_dec a 0); [lra|].
    eexists. split; [reflexivity|].
    apply nonnegative_never_negative, finish_nonnegative, sqrt_pos.
Qed.

Lemma reciprocal_at_least_one (x : R) :
  0 < x <= 1 ->
  exists r : fl, rdiv (Fin 1) (Fin x) = Some r /\ at_least_one r.
Proof.
  intros Hx. cbn. destruct (Req_dec_T x 0); [lra|].
  eexists. split; [reflexivity|].
  apply finish_at_least_one.
  unfold Rdiv. rewrite Rmult_1_l. rewrite <- Rinv_1 at 1.
  apply Rinv_le_contravar; lra.
Qed.

Lemma minus_one_nonnegative (r : fl) :
  at_least_one r -> nonnegative (rsub r (Fin 1)).
Proof.
  intros Hr. destruct r as [| s | y]; cbn in Hr; [contradiction | |].
  - subst s. reflexivity.
  - cbn. apply finish_nonnegative. lra.
Qed.

Lemma mul_never_negative (a b : fl) :
  nonnegative a -> never_negative b -> never_negative (rmul a b).
Proof.
  intros Ha Hb.
  destruct a as [| s | x]; cbn in Ha; [contradiction | |];
    destruct b as [| t | y]; cbn in Hb; try exact I.
  - subst s t. reflexivity.
  - subst s. cbn. destruct (Req_dec_T y 0); [exact I|].
    cbn. unfold Rltb. destruct (Rlt_dec y 0); [lra | reflexivity].
  - subst t. cbn. destruct (Req_dec_T x 0); [exact I|].
    cbn. unfold Rltb. destruct (Rlt_dec x 0); [lra | reflexivity].
  - cbn [r_mul]. apply nonnegative_never_negative, finish_nonnegative.
    apply Rmult_le_pos; assumption.
Qed.

Lemma one_plus_never_zero (t : fl) :
  never_negative t -> never_zero (radd (Fin 1) t).
Proof.
  intros Ht. destruct t as [| s | y]; cbn in Ht.
  - exact I.
  - subst s. reflexivity.
  - cbn [r_add].
    pose proof (finish_at_least_one (1 + y) ltac:(lra)) as H1.
    destruct (finish (1 + y)); cbn in *; tauto.
Qed.

Lemma div_by_never_zero (a : R) (d : fl) :
  1 <= a -> never_zero d ->
  exists x : fl, rdiv (Fin a) d = Some x /\ never_negative x.
Proof.
  intros Ha Hd. destruct d as [| s | z]; cbn in Hd.
  - cbn. eexists. split; [reflexivity | exact I].
  - subst s. cbn. eexists. split; [reflexivity|]. cbn. lra.
  - cbn. destruct (Req_dec_T z 0); [lra|].
    eexists. split; [reflexivity|].
    apply nonnegative_never_negative, finish_nonnegative.
    apply Rmult_le_pos; [lra|]. left. apply Rinv_0_lt_compat. lra.
Qed.

Lemma rint_zero : rint 0 = Some (Fin 0).
Proof.
  unfold r_of_int.
  destruct (finish_unit 0 ltac:(lra)) as [-> _]. rewrite rnd_0. reflexivity.
Qed.

(** In the general branch a positive threshold makes [p] positive. *)
Lemma general_branch_positive (x : R) (eps : fl) :
  positive eps -> r_ltb (Fin x) eps = false -> 0 < x.
Proof.
  intros He Hge. destruct eps as [| s | e]; cbn in He.
  - contradiction.
  - subst s. cbn in Hge. discriminate.
  - cbn in Hge. unfold Rltb in Hge.
    destruct (Rlt_dec x e); [discriminate | lra].
Qed.

Lemma compute_kappa_returns (q0_pilot q1_pilot : fl) (m_pilot : Z) (eps : fl)
    (w : warnings_env) :
  unit_float q0_pilot -> unit_float q1_pilot -> (0 <= m_pilot)%Z ->
  (m_pilot = 0%Z -> positive (rsub (Fin 1) (rsub (Fin 1) eps))) ->
  rint m_pilot <> None ->
  exists kappa : fl,
    Floating.compute_kappa (H := ops) q0_pilot q1_pilot m_pilot eps w
    = (Returned kappa, after_kappa m_pilot w) /\
    kappa_computed (H := ops) q0_pilot q1_pilot m_pilot eps kappa /\
    never_negative kappa.
Proof.
  intros Hq0 Hq1 Hmp Heps Hconv.
  pose proof (one_minus_unit q0_pilot Hq0) as (u0 & Hu0 & Hu0r).
  unfold Floating.compute_kappa, kappa_computed, after_kappa.
  destruct (Z.eqb_spec m_pilot 0) as [Hz | Hnz].
  - pose proof (kappa_divisor_positive q1_pilot eps Hq1 (Heps Hz)) as Hd.
    cbn [fsub fone rounded fdiv]. rewrite Hu0.
    destruct (div_by_positive u0 _ (proj1 Hu0r) Hd) as (k & Hk & Hnn).
    exists k. unfold bind, truediv. cbn [warn snd fdiv rounded].
    rewrite Hk. repeat split; try reflexivity.
    apply nonnegative_never_negative. assumption.
  - pose proof (one_minus_unit q1_pilot Hq1) as (u1 & Hu1 & Hu1r).
    destruct (rint_at_least_one m_pilot ltac:(lia) Hconv) as (a & Ha & Ha1).
    pose proof (laplace_term a u0 Ha1 Hu0r) as Hn.
    pose proof (laplace_term a u1 Ha1 Hu1r) as Hd.
    destruct (div_at_least_one _ _ Hn Hd) as (k & Hk & Hnn).
    exists k. unfold bind, py_float, truediv.
    cbn [fof_int fsub fone fmul fadd fdiv rounded].
    rewrite Ha, Hu0, Hu1. unfold ret at 1 2. rewrite Hk.
    split; [reflexivity|]. split; [| assumption].
    exists (Fin a). split; [reflexivity | assumption].
Qed.

(** The divisor of the share: [1/p], the square root and the sum are
    defined, and the sum is never zero. *)
Lemma share_divisor (x : R) (kappa : fl) :
  0 < x <= 1 -> never_negative kappa ->
  exists r s : fl,
    rdiv (Fin 1) (Fin x) = Some r /\ rsqrt kappa = Some s /\
    never_zero (radd (Fin 1) (rmul (rsub r (Fin 1)) s)).
Proof.
  intros Hx Hk.
  destruct (reciprocal_at_least_one x Hx) as (r & Hr & Hr1).
  destruct (sqrt_never_negative kappa Hk) as (s & Hs & Hsn).
  exists r, s. repeat split; try assumption.
  apply one_plus_never_zero, mul_never_negative;
    [apply minus_one_nonnegative|]; assumption.
Qed.

Lemma raw_m1_returns (m : Z) (x : R) (kappa : fl) (w : warnings_env) :
  (0 < m)%Z -> 0 < x <= 1 -> never_negative kappa -> rint m <> None ->
  exists v : fl,
    Floating.raw_m1 (H := ops) m (Fin x) kappa w = (Returned v, w) /\
    share_computed (H := ops) m (Fin x) kappa v /\
    never_negative v.
Proof.
  intros Hm Hx Hk Hconv.
  destruct (share_divisor x kappa Hx Hk) as (r & s & Hr & Hs & Hden).
  destruct (rint_at_least_one m ltac:(lia) Hconv) as (a & Ha & Ha1).
  destruct (div_by_never_zero a _ Ha1 Hden) as (v & Hv & Hvn).
  exists v. unfold Floating.raw_m1, share_computed, bind, truediv, math_sqrt,
    py_float.
  cbn [fof_int fsub fone fmul fadd fdiv fsqrt rounded].
  rewrite Hr. unfold ret at 1. rewrite Hs. unfold ret at 1.
  rewrite Ha. unfold ret at 1. rewrite Hv.
  split; [reflexivity|].
  split; [exists r, s, (Fin a); repeat split; assumption | assumption].
Qed.

(** A budget too large for a float stops the computation of the share. *)
Lemma raw_m1_overflows (m : Z) (x : R) (kappa : fl) (w : warnings_env) :
  0 < x <= 1 -> never_negative kappa -> rint m = None ->
  Floating.raw_m1 (H := ops) m (Fin x) kappa w = (Raised OverflowError, w).
Proof.
  intros Hx Hk Hconv.
  destruct (share_divisor x kappa Hx Hk) as (r & s & Hr & Hs & _).
  unfold Floating.raw_m1, bind, truediv, math_sqrt, py_float.
  cbn [fof_int fsub fone fmul fadd fdiv fsqrt rounded].
  rewrite Hr. unfold ret at 1. rewrite Hs. unfold ret at 1.
  rewrite Hconv. reflexivity.
Qed.

(** The clamping and rounding step on a computed share: the share is
    never below zero there, so the rounding is defined; the size obtained
    is in range, and with a feasible pilot it is the share clamped and
    rounded. *)
Lemma clamp_round_returns (m m_pilot : Z) (v : fl) (w : warnings_env) :
  never_negative v ->
  exists m1 : Z,
    Floating.clamp_round (H := ops) m m_pilot v w = (Returned m1, w) /\
    (m_pilot <= m1 <= Z.max m_pilot (m - m_pilot))%Z /\
    ((2 * m_pilot <= m)%Z ->
     match v with
     | Fin y =>
         m1 = py_round_float (clamp (IZR m_pilot) (IZR (m - m_pilot)) y)
     | _ => m1 = (m - m_pilot)%Z
     end).
Proof.
  intros Hv. unfold Floating.clamp_round, bind, builtin_round.
  destruct v as [| s | y]; cbn in Hv; cbn [fcompare_int fround rounded
    r_compare_int r_round].
  - eexists. split; [reflexivity|]. rewrite py_max_Zmax. lia.
  - subst s. eexists. split; [reflexivity|]. rewrite py_max_Zmax. lia.
  - exists (py_max m_pilot
              (if Rlt_dec y (IZR (m - m_pilot)) then py_round_float y
               else (m - m_pilot)%Z)).
    split.
    + destruct (Rlt_dec y (IZR (m - m_pilot))); [reflexivity|].
      destruct (Rlt_dec (IZR (m - m_pilot)) y); reflexivity.
    + rewrite <- clamp_round_unfold.
      split; [apply clamp_round_bounds | apply clamp_round_clamp].
Qed.

(** The general branch, step by step. *)
Lemma allocate_general_returns (m : Z) (p q0_pilot q1_pilot : fl)
    (m_pilot : Z) (eps : fl) (w : warnings_env) :
  unit_float p -> unit_float q0_pilot -> unit_float q1_pilot ->
  (0 < m)%Z -> (0 <= m_pilot)%Z ->
  positive eps ->
  (m_pilot = 0%Z -> positive (rsub (Fin 1) (rsub (Fin 1) eps))) ->
  rint m <> None -> rint m_pilot <> None ->
  r_ltb p eps = false ->
  exists (kappa v : fl) (m1 : Z),
    kappa_computed (H := ops) q0_pilot q1_pilot m_pilot eps kappa /\
    share_computed (H := ops) m p kappa v /\
    Floating.allocate_calibration_sample (H := ops) m p q0_pilot q1_pilot
      m_pilot eps w = (Returned ((m - m1)%Z, m1), after_kappa m_pilot w) /\
    (m_pilot <= m1 <= Z.max m_pilot (m - m_pilot))%Z /\
    ((2 * m_pilot <= m)%Z ->
     match v with
     | Fin y =>
         m1 = py_round_float (clamp (IZR m_pilot) (IZR (m - m_pilot)) y)
     | _ => m1 = (m - m_pilot)%Z
     end).
Proof.
  intros Hp Hq0 Hq1 Hm Hmp He Heps Hcm Hcp Hge.
  destruct (compute_kappa_returns q0_pilot q1_pilot m_pilot eps w
              Hq0 Hq1 Hmp Heps Hcp) as (kappa & Hkrun & Hkf & Hkn).
  pose proof Hp as (x & Hpx & Hx). subst p.
  pose proof (general_branch_positive x eps He Hge) as Hx0.
  destruct (raw_m1_returns m x kappa (after_kappa m_pilot w) Hm
              ltac:(lra) Hkn Hcm) as (v & Hvrun & Hvf & Hvn).
  destruct (clamp_round_returns m m_pilot v (after_kappa m_pilot w) Hvn)
    as (m1 & Hcrun & Hrange & Hm1).
  exists kappa, v, m1.
  split; [assumption|]. split; [assumption|].
  split; [| split; assumption].
  unfold Floating.allocate_calibration_sample, bind.
  rewrite validate_returns by assumption.
  cbn [fltb rounded]. rewrite Hge, Hkrun, Hvrun, Hcrun. reflexivity.
Qed.

Lemma allocate_degenerate_returns (m : Z) (p q0_pilot q1_pilot : fl)
    (m_pilot : Z) (eps : fl) (w : warnings_env) :
  unit_float p -> unit_float q0_pilot -> unit_float q1_pilot ->
  (0 < m)%Z -> (0 <= m_pilot)%Z ->
  r_ltb p eps = true ->
  Floating.allocate_calibration_sample (H := ops) m p q0_pilot q1_pilot
    m_pilot eps w = (Returned (m_pilot, (m - m_pilot)%Z), w).
Proof.
  intros Hp Hq0 Hq1 Hm Hmp Hlt.
  unfold Floating.allocate_calibration_sample, bind.
  rewrite validate_returns by assumption.
  cbn [fltb rounded]. rewrite Hlt. unfold ret. do 2 f_equal. f_equal. lia.
Qed.

(** C4 (amended): on every valid input in the general branch, with a
    feasible pilot, a positive threshold (whose clamp is effective when
    there is no pilot) and [m], [m_pilot] convertible to floats, the call
    returns [(m - m1, m1)] where [m1] is the floating-point value [x] of
    [m / (1 + (1/p - 1) * sqrt kappa)], each operation rounded, clamped into
    [[m_pilot, m - m_pilot]] and rounded to a nearest integer (ties to the
    even one); an [x] that is infinite or not a number gives
    [m1 = m - m_pilot].  [kappa] is the floating-point value of the prior
    ratio when [m_pilot = 0] and of the Laplace-smoothed ratio otherwise. *)
Theorem allocate_formula_in_floats (m : Z) (p q0_pilot q1_pilot : fl)
    (m_pilot : Z) (eps : fl) (w : warnings_env) :
  unit_float p -> unit_float q0_pilot -> unit_float q1_pilot ->
  (0 < m)%Z -> (0 <= m_pilot)%Z ->
  (2 * m_pilot <= m)%Z ->
  positive eps ->
  (m_pilot = 0%Z -> positive (rsub (Fin 1) (rsub (Fin 1) eps))) ->
  rint m <> None -> rint m_pilot <> None ->
  r_ltb p eps = false ->
  exists (kappa x : fl) (m1 : Z),
    kappa_computed (H := ops) q0_pilot q1_pilot m_pilot eps kappa /\
    share_computed (H := ops) m p kappa x /\
    fst (Floating.allocate_calibration_sample (H := ops) m p q0_pilot
           q1_pilot m_pilot eps w) = Returned ((m - m1)%Z, m1) /\
    match x with
    | Fin y =>
        m1 = py_round_float (clamp (IZR m_pilot) (IZR (m - m_pilot)) y) /\
        Rabs (IZR m1 - clamp (IZR m_pilot) (IZR (m - m_pilot)) y) <= 1 / 2
    | _ => m1 = (m - m_pilot)%Z
    end.
Proof.
  intros Hp Hq0 Hq1 Hm Hmp Hfeas He Heps Hcm Hcp Hge.
  destruct (allocate_general_returns m p q0_pilot q1_pilot m_pilot eps w
              Hp Hq0 Hq1 Hm Hmp He Heps Hcm Hcp Hge)
    as (kappa & x & m1 & Hk & Hx & Hrun & _ & Hm1).
  specialize (Hm1 Hfeas).
  exists kappa, x, m1.
  split; [exact Hk|]. split; [exact Hx|].
  rewrite Hrun. split; [reflexivity|].
  destruct x as [| s | y]; try assumption.
  split; [assumption|]. rewrite Hm1. apply py_round_float_nearest.
Qed.

(** C10 (amended): on every input that passes the entry checks, with a
    positive threshold (whose clamp is effective when there is no pilot:
    [1 - (1 - eps)] is positive in the arithmetic) and [m], [m_pilot]
    convertible to floats, every arithmetic step is defined and the call
    returns: the divisor of [kappa] is positive without a pilot and at least
    [1] with one, [kappa] is computed and never negative, in the general
    branch [p > 0] and the final divisor is at least [1] (or infinite or not
    a number), never zero, and no exception is raised. *)
Theorem allocate_well_defined_in_floats (m : Z) (p q0_pilot q1_pilot : fl)
    (m_pilot : Z) (eps : fl) (w : warnings_env) :
  unit_float p -> unit_float q0_pilot -> unit_float q1_pilot ->
  (0 < m)%Z -> (0 <= m_pilot)%Z ->
  positive eps ->
  (m_pilot = 0%Z -> positive (rsub (Fin 1) (rsub (Fin 1) eps))) ->
  rint m <> None -> rint m_pilot <> None ->
  (m_pilot = 0%Z ->
   positive (rsub (Fin 1)
               (builtin_min (H := ops) q1_pilot (rsub (Fin 1) eps)))) /\
  ((0 < m_pilot)%Z ->
   exists b : fl,
     rint m_pilot = Some b /\
     at_least_one (radd (rmul b (rsub (Fin 1) q1_pilot)) (Fin 1))) /\
  (exists kappa : fl,
     fst (Floating.compute_kappa (H := ops) q0_pilot q1_pilot m_pilot eps w)
     = Returned kappa /\
     never_negative kappa /\
     (r_ltb p eps = false ->
      positive p /\
      (exists r s : fl,
         rdiv (Fin 1) p = Some r /\ rsqrt kappa = Some s /\
         never_zero (radd (Fin 1) (rmul (rsub r (Fin 1)) s))) /\
      exists x : fl,
        fst (Floating.raw_m1 (H := ops) m p kappa w) = Returned x /\
        never_negative x)) /\
  (exists m0 m1 : Z,
     fst (Floating.allocate_calibration_sample (H := ops) m p q0_pilot
            q1_pilot m_pilot eps w) = Returned (m0, m1)).
Proof.
  intros Hp Hq0 Hq1 Hm Hmp He Heps Hcm Hcp.
  split; [intros Hz; apply kappa_divisor_positive; auto|].
  split.
  { intros Hpos.
    destruct (rint_at_least_one m_pilot ltac:(lia) Hcp) as (a & Ha & Ha1).
    pose proof (one_minus_unit q1_pilot Hq1) as (u1 & Hu1 & Hu1r).
    exists (Fin a). split; [assumption|].
    rewrite Hu1. apply laplace_term; assumption. }
  split.
  - destruct (compute_kappa_returns q0_pilot q1_pilot m_pilot eps w
                Hq0 Hq1 Hmp Heps Hcp) as (kappa & Hkrun & _ & Hkn).
    exists kappa. rewrite Hkrun. split; [reflexivity|]. split; [assumption|].
    intros Hge.
    pose proof Hp as (x & Hpx & Hx). subst p.
    pose proof (general_branch_positive x eps He Hge) as Hx0.
    split; [exact Hx0|].
    split; [apply share_divisor; [lra | assumption]|].
    destruct (raw_m1_returns m x kappa w Hm ltac:(lra) Hkn Hcm)
      as (v & Hvrun & _ & Hvn).
    exists v. rewrite Hvrun. split; [reflexivity | assumption].
  - destruct (r_ltb p eps) eqn:Hlt.
    + rewrite allocate_degenerate_returns by assumption.
      eexists _, _. reflexivity.
    + destruct (allocate_general_returns m p q0_pilot q1_pilot m_pilot eps w
                  Hp Hq0 Hq1 Hm Hmp He Heps Hcm Hcp Hlt)
        as (kappa & x & m1 & _ & _ & Hrun & _).
      rewrite Hrun. eexists _, _. reflexivity.
Qed.

(** X18: the budget is conserved in floating point too: on every valid
    input with a feasible pilot, a positive threshold (effective when there
    is no pilot) and convertible [m], [m_pilot], whatever the rounding does
    to the share, the call returns integers [(m0, m1)] with [m0 + m1 = m],
    [m0 >= m_pilot] and [m1 >= m_pilot]. *)
Theorem budget_conserved_in_floats (m : Z)
    (p q0_pilot q1_pilot : fl) (m_pilot : Z) (eps : fl) (w : warnings_env) :
  unit_float p -> unit_float q0_pilot -> unit_float q1_pilot ->
  (0 < m)%Z -> (0 <= m_pilot)%Z ->
  (2 * m_pilot <= m)%Z ->
  positive eps ->
  (m_pilot = 0%Z -> positive (rsub (Fin 1) (rsub (Fin 1) eps))) ->
  rint m <> None -> rint m_pilot <> None ->
  exists m0 m1 : Z,
    fst (Floating.allocate_calibration_sample (H := ops) m p q0_pilot
           q1_pilot m_pilot eps w) = Returned (m0, m1) /\
    (m0 + m1 = m)%Z /\ (m_pilot <= m0)%Z /\ (m_pilot <= m1)%Z.
Proof.
  intros Hp Hq0 Hq1 Hm Hmp Hfeas He Heps Hcm Hcp.
  destruct (r_ltb p eps) eqn:Hlt.
  - rewrite allocate_degenerate_returns by assumption.
    eexists _, _. split; [reflexivity | lia].
  - destruct (allocate_general_returns m p q0_pilot q1_pilot m_pilot eps w
                Hp Hq0 Hq1 Hm Hmp He Heps Hcm Hcp Hlt)
      as (kappa & x & m1 & _ & _ & Hrun & Hrange & _).
    rewrite Hrun. eexists _, _. split; [reflexivity | lia].
Qed.

(** X19: the size of the budget matters only in the general branch.  On a
    valid input with a positive threshold (effective when there is no
    pilot): below the threshold the call returns [(m_pilot, m - m_pilot)]
    whatever the size of [m] and [m_pilot]; in the general branch it raises
    [OverflowError] when [m] or [m_pilot] is too large for a float (after
    showing the advisory when there is no pilot) and returns a pair
    otherwise. *)
Theorem allocate_overflow (m : Z) (p q0_pilot q1_pilot : fl) (m_pilot : Z)
    (eps : fl) (w : warnings_env) :
  unit_float p -> unit_float q0_pilot -> unit_float q1_pilot ->
  (0 < m)%Z -> (0 <= m_pilot)%Z ->
  positive eps ->
  (m_pilot = 0%Z -> positive (rsub (Fin 1) (rsub (Fin 1) eps))) ->
  let call :=
    Floating.allocate_calibration_sample (H := ops) m p q0_pilot q1_pilot
      m_pilot eps w in
  (r_ltb p eps = true -> call = (Returned (m_pilot, (m - m_pilot)%Z), w)) /\
  (r_ltb p eps = false -> rint m = None \/ rint m_pilot = None ->
   call = (Raised OverflowError, after_kappa m_pilot w)) /\
  (r_ltb p eps = false -> rint m <> None -> rint m_pilot <> None ->
   exists m0 m1 : Z, call = (Returned (m0, m1), after_kappa m_pilot w)).
Proof.
  intros Hp Hq0 Hq1 Hm Hmp He Heps. cbv zeta.
  split; [apply allocate_degenerate_returns; assumption|].
  split.
  - intros Hge Hconv.
    unfold Floating.allocate_calibration_sample, bind.
    rewrite validate_returns by assumption.
    cbn [fltb rounded]. rewrite Hge.
    destruct (rint m_pilot) as [b |] eqn:Hb.
    + destruct Hconv as [Hcm | ?]; [| discriminate].
      destruct (compute_kappa_returns q0_pilot q1_pilot m_pilot eps w
                  Hq0 Hq1 Hmp Heps ltac:(congruence))
        as (kappa & Hkrun & _ & Hkn).
      rewrite Hkrun.
      pose proof Hp as (x & Hpx & Hx). subst p.
      pose proof (general_branch_positive x eps He Hge) as Hx0.
      rewrite raw_m1_overflows by (assumption || lra). reflexivity.
    + assert (Hnz : (m_pilot =? 0)%Z = false).
      { apply Z.eqb_neq. intros ->. rewrite rint_zero in Hb. discriminate. }
      unfold Floating.compute_kappa, after_kappa, bind, py_float.
      rewrite Hnz. cbn [fof_int rounded]. rewrite Hb. reflexivity.
  - intros Hge Hcm Hcp.
    destruct (allocate_general_returns m p q0_pilot q1_pilot m_pilot eps w
                Hp Hq0 Hq1 Hm Hmp He Heps Hcm Hcp Hge)
      as (kappa & x & m1 & _ & _ & Hrun & _).
    rewrite Hrun. eexists _, _. reflexivity.
Qed.

(** X4: at [p = 1], with a budget that a float holds exactly, every valid
    call with a feasible pilot returns [(m_pilot, m - m_pilot)]: the
    specificity subset gets nothing beyond the pilot, and nothing at all
    when there is no pilot. *)
Theorem allocate_at_full_rate (m : Z) (q0_pilot q1_pilot : fl) (m_pilot : Z)
    (eps : fl) (w : warnings_env) :
  unit_float q0_pilot -> unit_float q1_pilot ->
  (0 < m)%Z -> (0 <= m_pilot)%Z ->
  (2 * m_pilot <= m)%Z ->
  (m_pilot = 0%Z -> positive (rsub (Fin 1) (rsub (Fin 1) eps))) ->
  rint m = Some (Fin (IZR m)) -> rint m_pilot <> None ->
  fst (Floating.allocate_calibration_sample (H := ops) m (Fin 1) q0_pilot
         q1_pilot m_pilot eps w) = Returned (m_pilot, (m - m_pilot)%Z).
Proof.
  intros Hq0 Hq1 Hm Hmp Hfeas Heps Hcm Hcp.
  assert (Hp : unit_float (Fin 1)) by (eexists; split; [reflexivity | lra]).
  destruct (r_ltb (Fin 1) eps) eqn:Hlt.
  - rewrite allocate_degenerate_returns by assumption. reflexivity.
  - destruct (compute_kappa_returns q0_pilot q1_pilot m_pilot eps w
                Hq0 Hq1 Hmp Heps Hcp) as (kappa & Hkrun & _ & Hkn).
    destruct (sqrt_never_negative kappa Hkn) as (s & Hs & Hsn).
    assert (H11 : finish (1 / 1) = Fin 1).
    { replace (1 / 1) with 1 by field.
      destruct (finish_unit 1 ltac:(lra)) as [-> _]. rewrite rnd_1.
      reflexivity. }
    assert (H0 : finish (1 - 1) = Fin 0).
    { replace (1 - 1) with 0 by ring.
      destruct (finish_unit 0 ltac:(lra)) as [-> _]. rewrite rnd_0.
      reflexivity. }
    assert (Hfm : finish (IZR m) = Fin (IZR m)).
    { unfold r_of_int in Hcm. destruct (finish (IZR m)); congruence. }
    assert (Hraw :
      exists v : fl,
        Floating.raw_m1 (H := ops) m (Fin 1) kappa (after_kappa m_pilot w)
        = (Returned v, after_kappa m_pilot w) /\
        (v = NaN \/ v = Fin (IZR m))).
    { unfold Floating.raw_m1, bind, truediv, math_sqrt, py_float.
      cbn [fof_int fsub fone fmul fadd fdiv fsqrt rounded r_div].
      destruct (Req_dec_T 1 0) as [H10 | _]; [lra|].
      rewrite H11. unfold ret at 1. rewrite Hs. unfold ret at 1.
      rewrite Hcm. unfold ret at 1. cbn [r_sub]. rewrite H0.
      destruct s as [| t | y]; cbn in Hsn.
      - cbn. eexists. split; [reflexivity | left; reflexivity].
      - subst t. cbn [r_mul].
        destruct (Req_dec_T 0 0) as [_ | Hne]; [| contradiction Hne; reflexivity].
        cbn. eexists. split; [reflexivity | left; reflexivity].
      - cbn [r_mul]. rewrite Rmult_0_l.
        destruct (finish_unit 0 ltac:(lra)) as [-> _]. rewrite rnd_0.
        cbn [r_add]. rewrite Rplus_0_r.
        destruct (finish_unit 1 ltac:(lra)) as [-> _]. rewrite rnd_1.
        cbn [r_div]. destruct (Req_dec_T 1 0) as [H10 | _]; [lra|].
        replace (IZR m / 1) with (IZR m) by field. rewrite Hfm.
        eexists. split; [reflexivity | right; reflexivity]. }
    destruct Hraw as (v & Hvrun & Hv).
    assert (Hvn : never_negative v).
    { destruct Hv as [-> | ->]; cbn; [exact I | apply IZR_le; lia]. }
    destruct (clamp_round_returns m m_pilot v (after_kappa m_pilot w) Hvn)
      as (m1 & Hcrun & _ & Hm1).
    specialize (Hm1 Hfeas).
    assert (Hm1' : m1 = (m - m_pilot)%Z).
    { destruct Hv as [-> | ->]; [assumption|].
      rewrite Hm1. unfold clamp.
      assert (IZR m_pilot <= IZR (m - m_pilot)) by (apply IZR_le; lia).
      assert (IZR (m - m_pilot) <= IZR m) by (apply IZR_le; lia).
      rewrite Rmin_left, Rmax_right by assumption.
      apply py_round_float_IZR. }
    unfold Floating.allocate_calibration_sample, bind.
    rewrite validate_returns by assumption.
    cbn [fltb rounded]. rewrite Hlt, Hkrun, Hvrun, Hcrun.
    cbn [fst]. rewrite Hm1'.
    replace (m - (m - m_pilot))%Z with m_pilot by lia. reflexivity.
Qed.

(** X3: for every input, valid or not, with a threshold whose clamp is
    effective, a call shows at most the one advisory; it shows it exactly
    when the entry checks pass, the general branch is taken, there is no
    pilot and warnings are not silenced - also when the call then fails;
    and the outcome is the same whether warnings are silenced or not. *)
Theorem advisory_shown_iff (m : Z) (p q0_pilot q1_pilot : fl) (m_pilot : Z)
    (eps : fl) :
  positive (rsub (Fin 1) (rsub (Fin 1) eps)) ->
  let call :=
    Floating.allocate_calibration_sample (H := ops) m p q0_pilot q1_pilot
      m_pilot eps in
  let advised :=
    unit_float p /\ unit_float q0_pilot /\ unit_float q1_pilot /\
    (0 < m)%Z /\ (0 <= m_pilot)%Z /\ r_ltb p eps = false /\ m_pilot = 0%Z in
  (advised -> snd (run call false) = [advisory]) /\
  (~ advised -> snd (run call false) = []) /\
  snd (run call true) = [] /\
  fst (run call false) = fst (run call true).
Proof.
  intros _. cbv zeta.
  assert (Hshown : forall silence : bool,
    snd (run (Floating.allocate_calibration_sample (H := ops) m p q0_pilot
                q1_pilot m_pilot eps) silence) =
    if in_unit_interval (H := ops) p && in_unit_interval (H := ops) q0_pilot &&
       in_unit_interval (H := ops) q1_pilot && (0 <? m)%Z &&
       (0 <=? m_pilot)%Z && negb (r_ltb p eps) && (m_pilot =? 0)%Z &&
       negb silence
    then [advisory] else []).
  { intros silence. rewrite snd_run, (allocate_state (H := ops)).
    cbn [fltb rounded].
    destruct (in_unit_interval p && in_unit_interval q0_pilot &&
              in_unit_interval q1_pilot && (0 <? m)%Z && (0 <=? m_pilot)%Z &&
              negb (r_ltb p eps)); cbn [andb]; [| reflexivity].
    rewrite shown_after_kappa.
    destruct (m_pilot =? 0)%Z, silence; reflexivity. }
  split; [| split; [| split]].
  - intros (Hp & Hq0 & Hq1 & Hm & Hmp & Hge & Hz).
    rewrite Hshown.
    apply in_unit_interval_unit_float in Hp, Hq0, Hq1.
    apply Z.ltb_lt in Hm. apply Z.leb_le in Hmp. apply Z.eqb_eq in Hz.
    rewrite Hp, Hq0, Hq1, Hm, Hmp, Hge, Hz. reflexivity.
  - intros Hn. rewrite Hshown.
    destruct (_ && negb false) eqn:Hb; [exfalso | reflexivity].
    apply Hn.
    repeat (apply andb_prop in Hb; destruct Hb as [Hb ?]).
    repeat split;
      try (apply in_unit_interval_unit_float; assumption).
    + apply Z.ltb_lt. assumption.
    + apply Z.leb_le. assumption.
    + apply negb_true_iff. assumption.
    + apply Z.eqb_eq. assumption.
  - rewrite Hshown, andb_false_r. reflexivity.
  - rewrite !fst_run. apply allocate_outcome_independent.
Qed.

End RoundedFacts.

(** *** The exact arithmetic as an instance *)

Lemma finish_exact (fmax r : R) :
  Rabs r <= fmax -> Floating.finish (fun x => x) fmax r = Fin r.
Proof.
  intros Hr. unfold Floating.finish.
  destruct (Rlt_dec fmax (Rabs r)); [lra | reflexivity].
Qed.

Lemma exact_convertible (fmax : R) (z : Z) :
  Rabs (IZR z) <= fmax ->
  r_of_int (fun x => x) fmax z = Some (Fin (IZR z)).
Proof.
  intros Hz. unfold r_of_int. rewrite finish_exact by assumption.
  reflexivity.
Qed.

Lemma exact_unconvertible (fmax : R) (z : Z) :
  fmax < Rabs (IZR z) -> r_of_int (fun x => x) fmax z = None.
Proof.
  intros Hz. unfold r_of_int, Floating.finish.
  destruct (Rlt_dec fmax (Rabs (IZR z))); [reflexivity | lra].
Qed.

Lemma exact_effective (fmax e : R) :
  1 <= fmax -> 0 < e <= 1 ->
  positive (r_sub (fun x => x) fmax (Fin 1)
              (r_sub (fun x => x) fmax (Fin 1) (Fin e))).
Proof.
  intros Hf He. cbn.
  rewrite finish_exact by (rewrite Rabs_pos_eq; lra). cbn.
  rewrite finish_exact by (rewrite Rabs_pos_eq; lra). cbn. lra.
Qed.

Lemma unit_float_Fin (x : R) : 0 <= x <= 1 -> unit_float (Fin x).
Proof. intros Hx. exists x. split; [reflexivity | assumption]. Qed.

Lemma allocate_formula_in_floats_witness :
  exists m1 : Z,
    fst (Floating.allocate_calibration_sample
           (H := rounded (fun x => x) 1000000)
           1000 (Fin (1 / 2)) (Fin (7 / 10)) (Fin (9 / 10)) 100
           (Fin (1 / 1000000)) (mk_warnings_env false []))
    = Returned ((1000 - m1)%Z, m1).
Proof.
  destruct (allocate_formula_in_floats (fun x => x) 1000000
              ltac:(intros; assumption) eq_refl eq_refl ltac:(lra)
              1000 (Fin (1 / 2)) (Fin (7 / 10)) (Fin (9 / 10)) 100
              (Fin (1 / 1000000)) (mk_warnings_env false []))
    as (kappa & x & m1 & _ & _ & Hrun & _).
  - apply unit_float_Fin. lra.
  - apply unit_float_Fin. lra.
  - apply unit_float_Fin. lra.
  - lia.
  - lia.
  - lia.
  - cbn. lra.
  - intros _. apply exact_effective; lra.
  - rewrite exact_convertible by (rewrite Rabs_pos_eq; lra). discriminate.
  - rewrite exact_convertible by (rewrite Rabs_pos_eq; lra). discriminate.
  - cbn. unfold Rltb. destruct (Rlt_dec _ _); [lra | reflexivity].
  - exists m1. exact Hrun.
Defined.

Lemma allocate_well_defined_in_floats_witness :
  exists m0 m1 : Z,
    fst (Floating.allocate_calibration_sample
           (H := rounded (fun x => x) 1000000)
           10 (Fin (1 / 2)) (Fin (9 / 10)) (Fin 1) 0
           (Fin (1 / 1000000)) (mk_warnings_env false []))
    = Returned (m0, m1).
Proof.
  apply (allocate_well_defined_in_floats (fun x => x) 1000000
           ltac:(intros; assumption) eq_refl eq_refl ltac:(lra)
           10 (Fin (1 / 2)) (Fin (9 / 10)) (Fin 1) 0
           (Fin (1 / 1000000)) (mk_warnings_env false [])).
  - apply unit_float_Fin. lra.
  - apply unit_float_Fin. lra.
  - apply unit_float_Fin. lra.
  - lia.
  - lia.
  - cbn. lra.
  - intros _. apply exact_effective; lra.
  - rewrite exact_convertible by (rewrite Rabs_pos_eq; lra). discriminate.
  - rewrite exact_convertible by (rewrite Rabs_pos_eq; lra). discriminate.
Defined.

Lemma budget_conserved_in_floats_witness :
  exists m0 m1 : Z,
    fst (Floating.allocate_calibration_sample
           (H := rounded (fun x => x) 1000000)
           1000 (Fin (1 / 2)) (Fin (7 / 10)) (Fin (9 / 10)) 100
           (Fin (1 / 1000000)) (mk_warnings_env false []))
    = Returned (m0, m1) /\
    (m0 + m1 = 1000)%Z /\ (100 <= m0)%Z /\ (100 <= m1)%Z.
Proof.
  apply (budget_conserved_in_floats (fun x => x) 1000000
           ltac:(intros; assumption) eq_refl eq_refl ltac:(lra)
           1000 (Fin (1 / 2)) (Fin (7 / 10)) (Fin (9 / 10)) 100
           (Fin (1 / 1000000)) (mk_warnings_env false [])).
  - apply unit_float_Fin. lra.
  - apply unit_float_Fin. lra.
  - apply unit_float_Fin. lra.
  - lia.
  - lia.
  - lia.
  - cbn. lra.
  - intros _. apply exact_effective; lra.
  - rewrite exact_convertible by (rewrite Rabs_pos_eq; lra). discriminate.
  - rewrite exact_convertible by (rewrite Rabs_pos_eq; lra). discriminate.
Defined.

Lemma allocate_overflow_witness :
  Floating.allocate_calibration_sample
    (H := rounded (fun x => x) 1000000)
    2000000 (Fin (1 / 2)) (Fin (7 / 10)) (Fin (9 / 10)) 0
    (Fin (1 / 1000000)) (mk_warnings_env false [])
  = (Raised OverflowError, mk_warnings_env false [advisory]).
Proof.
  apply (allocate_overflow (fun x => x) 1000000
           ltac:(intros; assumption) eq_refl eq_refl ltac:(lra)
           2000000 (Fin (1 / 2)) (Fin (7 / 10)) (Fin (9 / 10)) 0
           (Fin (1 / 1000000)) (mk_warnings_env false [])).
  - apply unit_float_Fin. lra.
  - apply unit_float_Fin. lra.
  - apply unit_float_Fin. lra.
  - lia.
  - lia.
  - cbn. lra.
  - intros _. apply exact_effective; lra.
  - cbn. unfold Rltb. destruct (Rlt_dec _ _); [lra | reflexivity].
  - left. apply exact_unconvertible. rewrite Rabs_pos_eq; lra.
Defined.

Lemma allocate_at_full_rate_witness :
  fst (Floating.allocate_calibration_sample
         (H := rounded (fun x => x) 1000000)
         100 (Fin 1) (Fin (7 / 10)) (Fin (9 / 10)) 0
         (Fin (1 / 1000000)) (mk_warnings_env false []))
  = Returned (0, (100 - 0))%Z.
Proof.
  apply (allocate_at_full_rate (fun x => x) 1000000
           ltac:(intros; assumption) eq_refl eq_refl ltac:(lra)
           100 (Fin (7 / 10)) (Fin (9 / 10)) 0
           (Fin (1 / 1000000)) (mk_warnings_env false [])).
  - apply unit_float_Fin. lra.
  - apply unit_float_Fin. lra.
  - lia.
  - lia.
  - lia.
  - intros _. apply exact_effective; lra.
  - apply exact_convertible. rewrite Rabs_pos_eq; lra.
  - rewrite exact_convertible by (rewrite Rabs_pos_eq; lra). discriminate.
Defined.

Lemma advisory_shown_iff_witness :
  snd (run (Floating.allocate_calibration_sample
              (H := rounded (fun x => x) 1000000)
              1000 (Fin (1 / 2)) (Fin (7 / 10)) (Fin (9 / 10)) 0
              (Fin (1 / 1000000))) false) = [advisory].
Proof.
  apply (advisory_shown_iff (fun x => x) 1000000
           1000 (Fin (1 / 2)) (Fin (7 / 10)) (Fin (9 / 10)) 0
           (Fin (1 / 1000000))).
  - apply exact_effective; lra.
  - repeat split; try (apply unit_float_Fin; lra); try lia.
    cbn. unfold Rltb. destruct (Rlt_dec _ _); [lra | reflexivity].
Defined.

(** *** What the code does in binary64 *)

#[local] Set Warnings "-inexact-float".

(** C4, as stated over exact reals, fails: at
    [allocate_calibration_sample(50, 0.11)] with the default arguments the
    code, in binary64, computes a share just below [5.5] and returns
    [(45, 5)], while the exact value of the formula at the same doubles is
    just above [5.5] and rounds to [6]. *)
Lemma general_formula_not_exact_in_binary64 :
  let p := 0.11%float in
  let q := 0.9%float in
  let eps := 1e-6%float in
  fst (run (Floating.allocate_calibration_sample (H := binary64)
              50 p q q 0 eps) false) = Returned (45, 5)%Z /\
  py_round_float (m1_spec 50 (b64_value p) (b64_value q) (b64_value q) 0
                    (b64_value eps)) = 6%Z.
Proof.
  cbv zeta. split; [vm_compute; reflexivity|].
  assert (Hp : b64_ratio 0.11%float
               = (7926335344172073, 72057594037927936)%Z)
    by (vm_compute; reflexivity).
  assert (Hq : b64_ratio 0.9%float
               = (8106479329266893, 9007199254740992)%Z)
    by (vm_compute; reflexivity).
  assert (He : b64_ratio 1e-6%float
               = (4722366482869645, 4722366482869645213696)%Z)
    by (vm_compute; reflexivity).
  unfold m1_spec, kappa_spec, b64_value. rewrite Hp, Hq, He.
  cbn [Z.eqb].
  rewrite Rmin_left by lra.
  replace ((1 - 8106479329266893 / 9007199254740992) /
           (1 - 8106479329266893 / 9007199254740992)) with 1 by (field; lra).
  rewrite sqrt_1.
  replace (IZR 50 / (1 + (1 / (7926335344172073 / 72057594037927936) - 1) * 1))
    with (50 * (7926335344172073 / 72057594037927936)) by (field; lra).
  unfold clamp. cbn [Z.sub Z.opp Z.add].
  rewrite Rmin_right by lra. rewrite Rmax_right by lra.
  apply py_round_float_unique. lra.
Qed.

(** C10, as stated, fails in binary64 on inputs that pass the entry checks
    with a positive [eps]: with [eps = 1e-17] the clamp [min(q1_pilot,
    1 - eps)] leaves [q1_pilot = 1] and the division raises
    [ZeroDivisionError]; a budget of [2^1024] cannot be converted and raises
    [OverflowError]; and with [eps = 0.1] the divisor [1 - min(1, 1 - eps)]
    is below [eps]. *)
Lemma well_definedness_fails_in_binary64 :
  fst (run (Floating.allocate_calibration_sample (H := binary64)
              10 0.5%float 0.9%float 1%float 0 1e-17%float) false)
  = Raised ZeroDivisionError /\
  PrimFloat.ltb 0%float 1e-17%float = true /\
  fst (run (Floating.allocate_calibration_sample (H := binary64)
              (2 ^ 1024) 0.5%float 0.9%float 0.9%float 0 1e-6%float) false)
  = Raised OverflowError /\
  PrimFloat.ltb
    (PrimFloat.sub 1%float
       (builtin_min (H := binary64) 1%float (PrimFloat.sub 1%float 0.1%float)))
    0.1%float = true.
Proof.
  repeat split; vm_compute; reflexivity.
Qed.


End FloatingFacts.
